(** * Chat relay backend: context assembly and persistence workflow

    A shallow embedding of the Express server of the repository
    (buildContextPrompt, getChatHistory, saveMessage, getOrCreateChatSession,
    updateChatSession and the POST /chat, GET /chat-sessions, GET /chat-messages
    and DELETE /chat-sessions handlers), followed by the properties of the
    specification that are about them.

    Modelling conventions.
    - A JavaScript string is the list of its UTF-16 code units, so that
      [length] and [substring] count what JavaScript counts.
    - The hosted database is a pair of tables kept in insertion order, an
      identifier generator and a logical clock.  A query is a function on the
      tables; [order] is a stable sort, so rows with equal timestamps stay in
      insertion order.
    - Every call that leaves the process (a database query, the generation
      request) can succeed, resolve to a result that carries an error, or
      reject.  Which one happens is fixed per call site by an [environment];
      a handler run takes an environment and threads the tables and a log of
      the external calls it made.
    - Row identifiers are opaque and truthy; the fields of a request body are
      strings when they are present. *)

From Stdlib Require Import List NArith Arith Bool Lia Sorted Permutation.
From Stdlib Require String Ascii DecimalString.
Import ListNotations.
Import String.StringSyntax.
Delimit Scope string_scope with string.

Set Implicit Arguments.

(* ------------------------------------------------------------------ *)
(** ** JavaScript strings and arrays *)

Module JS.

Definition code_unit := N.
Definition jsstring := list code_unit.

(** A string literal of the source (all the literals used are ASCII). *)
Definition lit (s : String.string) : jsstring :=
  map Ascii.N_of_ascii (String.list_ascii_of_string s).
Arguments lit s%_string.

(** [a === b] on strings. *)
Fixpoint eqb (a b : jsstring) : bool :=
  match a, b with
  | [], [] => true
  | x :: a', y :: b' => N.eqb x y && eqb a' b'
  | _, _ => false
  end.

(** Truthiness of a string: only the empty string is falsy. *)
Definition truthy (s : jsstring) : bool :=
  match s with [] => false | _ :: _ => true end.

(** Truthiness of a possibly missing string ([undefined], [null] or a string). *)
Definition truthy_opt (s : option jsstring) : bool :=
  match s with None => false | Some v => truthy v end.

(** [a || b] on strings. *)
Definition or_else (a b : jsstring) : jsstring :=
  if truthy a then a else b.

(** [s.substring(0, n)]. *)
Definition substring0 (n : nat) (s : jsstring) : jsstring := firstn n s.

Fixpoint starts_with (p s : jsstring) : bool :=
  match p, s with
  | [], _ => true
  | x :: p', y :: s' => N.eqb x y && starts_with p' s'
  | _ :: _, [] => false
  end.

(** [s.includes(needle)]. *)
Fixpoint includes (s needle : jsstring) : bool :=
  starts_with needle s ||
  match s with
  | [] => false
  | _ :: s' => includes s' needle
  end.

(** [arr.slice(-n)]: the start index is [max (length - n) 0]. *)
Definition slice_last {A} (n : nat) (l : list A) : list A :=
  skipn (length l - n) l.

(** Conversion of a non-negative integer inside a template literal. *)
Definition of_number (n : N) : jsstring :=
  lit (DecimalString.NilEmpty.string_of_uint (N.to_uint n)).

End JS.

Import JS.

Notation "a +++ b" := (@app code_unit a b) (at level 60, right associativity).

(* ------------------------------------------------------------------ *)
(** ** The persisted tables *)

Definition row_id := N.
Definition timestamp := N.

Record ChatSession := mkSession {
  cs_id : row_id;
  cs_user_id : jsstring;
  cs_title : jsstring;
  cs_created_at : timestamp;
  cs_updated_at : timestamp
}.

Record ChatMessage := mkMessage {
  cm_id : row_id;
  cm_chat_id : row_id;
  cm_role : jsstring;
  cm_content : jsstring;
  cm_created_at : timestamp
}.

(** The columns [role, content, created_at] that getChatHistory selects. *)
Record HistoryRow := mkHistoryRow {
  role : jsstring;
  content : jsstring;
  created_at : timestamp
}.

Record store := mkStore {
  chat_sessions : list ChatSession;
  chat_messages : list ChatMessage;
  next_id : row_id;
  clock : timestamp
}.

Definition empty_store : store := mkStore [] [] 1%N 1%N.

(** *** Query primitives *)

Section Ordering.
Variable A : Type.
Variable key : A -> N.
(** [ascending = true] sorts by increasing key. *)
Variable ascending : bool.

Definition goes_before (x y : A) : bool :=
  if ascending then N.leb (key x) (key y) else N.leb (key y) (key x).

Fixpoint place (x : A) (sorted : list A) : list A :=
  match sorted with
  | [] => [x]
  | y :: rest => if goes_before x y then x :: y :: rest else y :: place x rest
  end.

(** [.order(column, { ascending })]: stable insertion sort. *)
Fixpoint order (l : list A) : list A :=
  match l with
  | [] => []
  | x :: rest => place x (order rest)
  end.
End Ordering.

(** [.limit(n)]. *)
Definition limit {A} (n : nat) (l : list A) : list A := firstn n l.

(** [.single()]: the row when exactly one matches, otherwise nothing. *)
Definition single {A} (l : list A) : option A :=
  match l with
  | [x] => Some x
  | _ => None
  end.

Definition project (m : ChatMessage) : HistoryRow :=
  mkHistoryRow (cm_role m) (cm_content m) (cm_created_at m).

(** *** The queries the server issues, as functions on the tables *)

Definition q_session_of (chatId : row_id) (userId : jsstring) (s : store) : option ChatSession :=
  single (filter (fun r => N.eqb (cs_id r) chatId && eqb (cs_user_id r) userId)
                 (chat_sessions s)).

Definition q_sessions_of_user (userId : jsstring) (s : store) : list ChatSession :=
  order cs_updated_at false
        (filter (fun r => eqb (cs_user_id r) userId) (chat_sessions s)).

Definition q_recent_session (userId : jsstring) (s : store) : list ChatSession :=
  limit 1 (q_sessions_of_user userId s).

Definition q_insert_session (userId title : jsstring) (s : store) : ChatSession * store :=
  let row := mkSession (next_id s) userId title (clock s) (clock s) in
  (row, mkStore (chat_sessions s ++ [row]) (chat_messages s)
                (N.succ (next_id s)) (N.succ (clock s))).

Definition q_insert_message (chatId : row_id) (r c : jsstring) (s : store) : ChatMessage * store :=
  let row := mkMessage (next_id s) chatId r c (clock s) in
  (row, mkStore (chat_sessions s) (chat_messages s ++ [row])
                (N.succ (next_id s)) (N.succ (clock s))).

Definition q_messages_of (chatId : row_id) (s : store) : list ChatMessage :=
  order cm_created_at true
        (filter (fun m => N.eqb (cm_chat_id m) chatId) (chat_messages s)).

Definition q_history (chatId : row_id) (n : nat) (s : store) : list HistoryRow :=
  map project (limit n (q_messages_of chatId s)).

Definition q_touch_session (chatId : row_id) (s : store) : store :=
  mkStore (map (fun r => if N.eqb (cs_id r) chatId
                         then mkSession (cs_id r) (cs_user_id r) (cs_title r)
                                        (cs_created_at r) (clock s)
                         else r)
               (chat_sessions s))
          (chat_messages s) (next_id s) (N.succ (clock s)).

Definition q_delete_messages (chatId : row_id) (s : store) : store :=
  mkStore (chat_sessions s)
          (filter (fun m => negb (N.eqb (cm_chat_id m) chatId)) (chat_messages s))
          (next_id s) (clock s).

Definition q_delete_session (chatId : row_id) (s : store) : store :=
  mkStore (filter (fun r => negb (N.eqb (cs_id r) chatId)) (chat_sessions s))
          (chat_messages s) (next_id s) (clock s).

(* ------------------------------------------------------------------ *)
(** ** External calls, their outcomes and the handler monad *)

(** The places of the source where a database query is awaited. *)
Inductive site :=
| SiteLookup          (* POST /chat: session by (id, user_id), .single() *)
| SiteRecent          (* getOrCreateChatSession: latest session of the user *)
| SiteCreate          (* getOrCreateChatSession: insert *)
| SiteSaveUser        (* saveMessage for the user turn *)
| SiteHistory         (* getChatHistory *)
| SiteSaveBot         (* saveMessage for the assistant turn *)
| SiteTouch           (* updateChatSession *)
| SiteListSessions    (* GET /chat-sessions/:userId *)
| SiteListMessages    (* GET /chat-messages/:chatId *)
| SiteDeleteMessages  (* DELETE /chat-sessions/:chatId, first query *)
| SiteDeleteSession.  (* DELETE /chat-sessions/:chatId, second query *)

Inductive fault :=
| NoFault
| ReturnsError (e : jsstring)   (* the awaited result is { data: null, error } *)
| Throws (e : jsstring).        (* the awaited promise rejects *)

(** One candidate of the generation backend's answer. *)
Record candidate := mkCandidate {
  finishReason : option jsstring;
  text : option jsstring          (* content.parts[0].text *)
}.

(** The parsed body of the generation backend's answer. *)
Record gemini_data := mkData {
  error_message : option jsstring;        (* data.error.message, when data.error is set *)
  candidates : option (list candidate)
}.

(** What the generation request comes back with: [fetch] or
    [response.json()] rejects, or an answer is received and parsed. *)
Inductive gen_outcome :=
| FetchThrows (e : jsstring)
| FetchResponse (ok : bool) (status : N) (statusText : jsstring) (data : gemini_data).

Record environment := mkEnv {
  store_fault : site -> fault;
  backend : gen_outcome
}.

Inductive event :=
| EvStore (st : site)
| EvGenerate (prompt : jsstring).

Record world := mkWorld {
  db : store;
  log : list event
}.

Inductive result (A : Type) :=
| Val (a : A)
| Exn (msg : jsstring).
Arguments Exn {A} msg.

Definition M (A : Type) := world -> result A * world.

Definition ret {A} (a : A) : M A := fun w => (Val a, w).

Definition bind {A B} (m : M A) (k : A -> M B) : M B :=
  fun w => match m w with
           | (Val a, w') => k a w'
           | (Exn e, w') => (Exn e, w')
           end.

(** [throw new Error(msg)]. *)
Definition throw {A} (msg : jsstring) : M A := fun w => (Exn msg, w).

(** [try { m } catch (err) { handler err.message }]. *)
Definition try_catch {A} (m : M A) (handler : jsstring -> M A) : M A :=
  fun w => match m w with
           | (Val a, w') => (Val a, w')
           | (Exn e, w') => handler e w'
           end.

Definition emit (e : event) : M unit :=
  fun w => (Val tt, mkWorld (db w) (log w ++ [e])).

Notation "x <- c ;; k" := (bind c (fun x => k))
  (at level 61, c at next level, right associativity).
Notation "c ;;; k" := (bind c (fun _ => k))
  (at level 61, right associativity).

(** The object [{ data, error }] an awaited query resolves to. *)
Record reply (A : Type) := mkReply {
  data : option A;
  error : option jsstring
}.

(** An awaited query at call site [st]: it is logged, and if the environment
    lets it through it runs [op] on the tables. *)
Definition store_call {A} (env : environment) (st : site)
           (op : store -> A * store) : M (reply A) :=
  emit (EvStore st) ;;;
  match store_fault env st with
  | NoFault => fun w => let (a, s') := op (db w) in
                        (Val (mkReply (Some a) None), mkWorld s' (log w))
  | ReturnsError e => ret (mkReply None (Some e))
  | Throws e => throw e
  end.

Definition reading {A} (q : store -> A) : store -> A * store := fun s => (q s, s).
Definition writing (q : store -> store) : store -> unit * store := fun s => (tt, q s).

(* ------------------------------------------------------------------ *)
(** ** Responses and requests *)

Inductive body :=
| ChatReply (reply : jsstring) (chatId : row_id) (contextUsed : bool)
| ErrorBody (error : jsstring) (details : option jsstring)
| SessionList (rows : list ChatSession)
| MessageList (rows : list ChatMessage)
| Confirmation (message : jsstring).

Record response := mkResponse {
  status : N;
  payload : body
}.

(** [res.json(b)] and [res.status(code).json(b)]. *)
Definition json (b : body) : response := mkResponse 200 b.
Definition status_json (code : N) (b : body) : response := mkResponse code b.

(** The body of POST /chat: [{ userId, message, chatId = null }]. *)
Record chat_request := mkRequest {
  userId : option jsstring;
  message : option jsstring;
  chatId : option row_id
}.

Definition field (o : option jsstring) : jsstring :=
  match o with Some v => v | None => [] end.

(* ------------------------------------------------------------------ *)
(** ** The context builder *)

Definition nl : jsstring := [10%N].

Definition preamble : jsstring := lit "You are a helpful AI assistant. ".

Definition history_header : jsstring :=
  lit "Here's our conversation history for context:" +++ nl +++ nl.

Definition context_instruction : jsstring :=
  nl +++ lit "Based on this conversation context, please provide a helpful and relevant response to: ".

Definition generic_instruction : jsstring :=
  lit "Please provide a clear, concise, and helpful response to: ".

Definition buildContextPrompt (currentMessage : jsstring)
           (chatHistory : list HistoryRow) : jsstring :=
  let contextPrompt := preamble in
  let contextPrompt :=
    if 0 <? length chatHistory then
      let contextPrompt := contextPrompt +++ history_header in
      let recentHistory := slice_last 10 chatHistory in
      let contextPrompt :=
        fold_left
          (fun acc msg =>
             let role := if eqb (role msg) (lit "user")
                         then lit "User" else lit "Assistant" in
             acc +++ (role +++ lit ": " +++ content msg +++ nl))
          recentHistory contextPrompt in
      contextPrompt +++ context_instruction
    else
      contextPrompt +++ generic_instruction in
  contextPrompt +++ currentMessage.

(** The session title POST /chat derives from the message. *)
Definition derive_title (message : jsstring) : jsstring :=
  if 50 <? length message
  then substring0 50 message +++ lit "..."
  else message.

(* ------------------------------------------------------------------ *)
(** ** The server functions *)

Definition safety_message : jsstring :=
  lit "Content was filtered for safety reasons. Please try rephrasing your message.".

Definition fallback_reply : jsstring :=
  lit "Sorry, I couldn't generate a response.".

Section Server.

Variable env : environment.

Definition getChatHistory (chatId : row_id) (lim : nat) : M (list HistoryRow) :=
  try_catch
    (r <- store_call env SiteHistory (reading (q_history chatId lim)) ;;
     match error r with
     | Some _ => ret []
     | None => ret (match data r with Some rows => rows | None => [] end)
     end)
    (fun _ => ret []).

(** [st] tells the two call sites of saveMessage apart. *)
Definition saveMessage (st : site) (chatId : row_id) (role content : jsstring)
  : M (option ChatMessage) :=
  try_catch
    (r <- store_call env st (q_insert_message chatId role content) ;;
     match error r with
     | Some _ => ret None
     | None => ret (data r)
     end)
    (fun _ => ret None).

Definition getOrCreateChatSession (userId : jsstring) (title : option jsstring)
  : M (option ChatSession) :=
  try_catch
    (returned <-
       (if negb (truthy_opt title) then
          r <- store_call env SiteRecent (reading (q_recent_session userId)) ;;
          match error r with
          | Some _ => ret (Some None)
          | None =>
              match data r with
              | Some (row :: _) => ret (Some (Some row))
              | _ => ret None
              end
          end
        else ret None) ;;
     match returned with
     | Some value => ret value
     | None =>
         r <- store_call env SiteCreate
                (q_insert_session userId (or_else (field title) (lit "New Chat"))) ;;
         match error r with
         | Some _ => ret None
         | None => ret (data r)
         end
     end)
    (fun _ => ret None).

Definition updateChatSession (chatId : row_id) : M unit :=
  try_catch
    (r <- store_call env SiteTouch (writing (q_touch_session chatId)) ;;
     ret tt)
    (fun _ => ret tt).

(** Lines 214-230 of the handler: the session the turn runs in. *)
Definition resolve_session (userId message : jsstring) (chatId : option row_id)
  : M (option ChatSession) :=
  chatSession <-
    match chatId with
    | Some cid =>
        r <- store_call env SiteLookup (reading (q_session_of cid userId)) ;;
        ret (match data r with Some found => found | None => None end)
    | None => ret None
    end ;;
  match chatSession with
  | Some cs => ret (Some cs)
  | None => getOrCreateChatSession userId (Some (derive_title message))
  end.

(** Lines 249-325: the generation request, the validation of its answer
    and the extraction of the reply text. *)
Definition generate (contextPrompt : jsstring) : M jsstring :=
  emit (EvGenerate contextPrompt) ;;;
  match backend env with
  | FetchThrows e => throw e
  | FetchResponse ok code statusText data =>
      if negb ok then
        match error_message data with
        | Some m =>
            if includes m (lit "API key") then
              throw (lit "Invalid or expired API key. Please check your Gemini API key.")
            else if includes m (lit "quota") then
              throw (lit "API quota exceeded. Please check your Gemini API usage.")
            else throw (or_else m (lit "Gemini API error"))
        | None => throw (lit "HTTP " +++ of_number code +++ lit ": " +++ statusText)
        end
      else
        match candidates data with
        | None | Some [] => throw (lit "No response generated by Gemini API")
        | Some (candidate :: _) =>
            if match finishReason candidate with
               | Some reason => eqb reason (lit "SAFETY")
               | None => false
               end
            then throw safety_message
            else ret (or_else (field (text candidate)) fallback_reply)
        end
  end.

(** Lines 238-337: the turn once its session is known. *)
Definition run_turn (message : jsstring) (chatSession : ChatSession) : M response :=
  saveMessage SiteSaveUser (cs_id chatSession) (lit "user") message ;;;
  chatHistory <- getChatHistory (cs_id chatSession) 10 ;;
  let contextPrompt := buildContextPrompt message chatHistory in
  aiResponse <- generate contextPrompt ;;
  saveMessage SiteSaveBot (cs_id chatSession) (lit "bot") aiResponse ;;;
  updateChatSession (cs_id chatSession) ;;;
  ret (json (ChatReply aiResponse (cs_id chatSession) (0 <? length chatHistory))).

(** POST /chat. *)
Definition post_chat (req : chat_request) : M response :=
  try_catch
    (if negb (truthy_opt (userId req)) || negb (truthy_opt (message req)) then
       ret (status_json 400 (ErrorBody (lit "userId and message are required") None))
     else
       chatSession <- resolve_session (field (userId req)) (field (message req))
                                      (chatId req) ;;
       match chatSession with
       | None =>
           ret (status_json 500 (ErrorBody (lit "Failed to create/get chat session") None))
       | Some cs => run_turn (field (message req)) cs
       end)
    (fun err =>
       ret (status_json 500 (ErrorBody (lit "Internal server error") (Some err)))).

(** GET /chat-sessions/:userId. *)
Definition get_chat_sessions (userId : jsstring) : M response :=
  try_catch
    (r <- store_call env SiteListSessions (reading (q_sessions_of_user userId)) ;;
     match error r with
     | Some e => throw e
     | None => ret (json (SessionList
                            (match data r with Some rows => rows | None => [] end)))
     end)
    (fun _ => ret (status_json 500 (ErrorBody (lit "Failed to fetch chat sessions") None))).

(** GET /chat-messages/:chatId. *)
Definition get_chat_messages (chatId : row_id) : M response :=
  try_catch
    (r <- store_call env SiteListMessages (reading (q_messages_of chatId)) ;;
     match error r with
     | Some e => throw e
     | None => ret (json (MessageList
                            (match data r with Some rows => rows | None => [] end)))
     end)
    (fun _ => ret (status_json 500 (ErrorBody (lit "Failed to fetch chat messages") None))).

(** DELETE /chat-sessions/:chatId. *)
Definition delete_chat_session (chatId : row_id) : M response :=
  try_catch
    (store_call env SiteDeleteMessages (writing (q_delete_messages chatId)) ;;;
     r <- store_call env SiteDeleteSession (writing (q_delete_session chatId)) ;;
     match error r with
     | Some e => throw e
     | None => ret (json (Confirmation (lit "Chat session deleted successfully")))
     end)
    (fun _ => ret (status_json 500 (ErrorBody (lit "Failed to delete chat session") None))).

End Server.

(** *** Running a handler *)

Definition start (s : store) : world := mkWorld s [].

Definition calm : site -> fault := fun _ => NoFault.

Definition is_generate (e : event) : bool :=
  match e with EvGenerate _ => true | EvStore _ => false end.

Definition generation_calls (w : world) : list event := filter is_generate (log w).

(* ------------------------------------------------------------------ *)
(** ** Vocabulary of the specification *)

(** The label the context builder gives a stored role. *)
Definition role_label (r : jsstring) : jsstring :=
  if eqb r (lit "user") then lit "User" else lit "Assistant".

(** One history entry as it appears in the prompt: ["<Role>: <content>"] and
    a line break. *)
Definition rendered (m : HistoryRow) : jsstring :=
  role_label (role m) +++ lit ": " +++ content m +++ nl.

Definition begins_with (s p : jsstring) : Prop := exists rest, s = p +++ rest.
Definition ends_with (s x : jsstring) : Prop := exists front, s = front +++ x.
Definition contains (s x : jsstring) : Prop := exists front rest, s = front +++ x +++ rest.

(** U+2026 HORIZONTAL ELLIPSIS, one code unit. *)
Definition ellipsis : jsstring := [8230%N].

Definition session_of_user (u : jsstring) (r : ChatSession) : bool :=
  eqb (cs_user_id r) u.

(** User [u] has a session row with identifier [c]. *)
Definition owns (s : store) (u : jsstring) (c : row_id) : bool :=
  existsb (fun r => N.eqb (cs_id r) c && session_of_user u r) (chat_sessions s).

(** The message belongs to one of the sessions of user [u]. *)
Definition message_of_user (s : store) (u : jsstring) (m : ChatMessage) : bool :=
  owns s u (cm_chat_id m).

(** A request that passes the validation of POST /chat. *)
Definition well_formed (req : chat_request) : Prop :=
  truthy_opt (userId req) = true /\ truthy_opt (message req) = true.

(** An answer of the generation backend whose top candidate was stopped by
    the safety filter. *)
Definition safety_blocked (g : gen_outcome) : Prop :=
  exists code statusText err top others,
    g = FetchResponse true code statusText (mkData err (Some (top :: others))) /\
    finishReason top = Some (lit "SAFETY").

Definition internal_error (details : jsstring) : response :=
  status_json 500 (ErrorBody (lit "Internal server error") (Some details)).

Definition session_failure : response :=
  status_json 500 (ErrorBody (lit "Failed to create/get chat session") None).

Definition delete_failure : response :=
  status_json 500 (ErrorBody (lit "Failed to delete chat session") None).

Definition delete_success : response :=
  json (Confirmation (lit "Chat session deleted successfully")).

(** *** Summaries of a run *)

Definition logged (w : world) (e : event) : world := mkWorld (db w) (log w ++ [e]).

(** What a write at call site [st] leaves in the tables. *)
Definition effect_of (env : environment) (st : site) (q : store -> store) (s : store)
  : store :=
  match store_fault env st with NoFault => q s | _ => s end.

(** What getChatHistory hands to the handler. *)
Definition fetched_history (env : environment) (chatId : row_id) (lim : nat) (s : store)
  : list HistoryRow :=
  match store_fault env SiteHistory with NoFault => q_history chatId lim s | _ => [] end.

(** What the generation step yields; it does not read the tables. *)
Definition generation_result (env : environment) (prompt : jsstring) : result jsstring :=
  fst (generate env prompt (start empty_store)).

Definition with_user_turn (env : environment) (chatId : row_id) (msg : jsstring)
           (s : store) : store :=
  effect_of env SiteSaveUser (fun s0 => snd (q_insert_message chatId (lit "user") msg s0)) s.

Definition with_bot_turn (env : environment) (chatId : row_id) (reply : jsstring)
           (s : store) : store :=
  effect_of env SiteSaveBot (fun s0 => snd (q_insert_message chatId (lit "bot") reply s0)) s.

(* ------------------------------------------------------------------ *)
(** ** Sample data *)

Module Sample.

Local Open Scope N_scope.

Definition u1 : jsstring := lit "u1".
Definition alice : jsstring := lit "alice".
Definition bob : jsstring := lit "bob".

(** A backend that answers [reply] normally. *)
Definition answering (reply : jsstring) : gen_outcome :=
  FetchResponse true 200 (lit "OK")
    (mkData None (Some [mkCandidate (Some (lit "STOP")) (Some reply)])).

(** A backend whose only candidate was stopped by the safety filter. *)
Definition blocking : gen_outcome :=
  FetchResponse true 200 (lit "OK")
    (mkData None (Some [mkCandidate (Some (lit "SAFETY")) None])).

Definition quiet : environment := mkEnv calm (answering (lit "Hi there")).
Definition filtered : environment := mkEnv calm blocking.

Definition failing_at (bad : site -> bool) : site -> fault :=
  fun st => if bad st then ReturnsError (lit "store unavailable") else NoFault.

Definition no_create : environment :=
  mkEnv (failing_at (fun st => match st with SiteCreate => true | _ => false end))
        (answering (lit "Hi there")).

Definition no_history : environment :=
  mkEnv (failing_at (fun st => match st with SiteHistory => true | _ => false end))
        (answering (lit "Hi there")).


Definition hello : chat_request := mkRequest (Some u1) (Some (lit "Hello")) None.
Definition hello_again : chat_request := mkRequest (Some u1) (Some (lit "Hello again")) None.

(** One session of [u1], no messages. *)
Definition earlier_session : ChatSession := mkSession 1 u1 (lit "Earlier chat") 1 1.
Definition returning_store : store := mkStore [earlier_session] [] 2 2.

(** Session 7 of [u1] with eleven messages written at times 1 to 11. *)
Definition numbered (k : N) : ChatMessage :=
  mkMessage (100 + k) 7 (if N.odd k then lit "user" else lit "bot") (of_number k) k.
Definition eleven : list ChatMessage :=
  map numbered [1; 2; 3; 4; 5; 6; 7; 8; 9; 10; 11]%N.
Definition crowded_store : store :=
  mkStore [mkSession 7 u1 (lit "Long chat") 0 11] eleven 200 12.

(** A session of [alice] with one message and a session of [bob]. *)
Definition alice_note : ChatMessage := mkMessage 3 1 (lit "user") (lit "private") 3.
Definition shared_store : store :=
  mkStore [mkSession 1 alice (lit "Alice") 1 1; mkSession 2 bob (lit "Bob") 2 2]
          [alice_note; mkMessage 4 2 (lit "user") (lit "hi") 4] 5 5.

(** The session a first "Hello" of [u1] creates, and the world right after. *)
Definition first_session : ChatSession := mkSession 1 u1 (lit "Hello") 1 1.
Definition after_create : world :=
  mkWorld (mkStore [first_session] [] 2 2) [EvStore SiteCreate].

(** A message of 51 code units. *)
Definition long_message : jsstring := repeat 97 51%nat.

End Sample.

(* ------------------------------------------------------------------ *)
(** ** Further vocabulary *)

(** Every stored timestamp lies before the store's clock. *)
Definition settled (s : store) : bool :=
  forallb (fun r => N.ltb (cs_updated_at r) (clock s)) (chat_sessions s) &&
  forallb (fun m => N.ltb (cm_created_at m) (clock s)) (chat_messages s).

(** What identifies a session row, its last update left aside. *)
Definition session_identity (r : ChatSession)
  : row_id * jsstring * jsstring * timestamp :=
  (cs_id r, cs_user_id r, cs_title r, cs_created_at r).

Definition ascending_by {A} (key : A -> N) (l : list A) : Prop :=
  StronglySorted (fun a b => (key a <= key b)%N) l.

Definition descending_by {A} (key : A -> N) (l : list A) : Prop :=
  StronglySorted (fun a b => (key b <= key a)%N) l.

(** The prompt a turn in session [chatId] sends, from the tables [s] the
    turn starts with. *)
Definition turn_history (env : environment) (chatId : row_id) (msg : jsstring)
           (s : store) : list HistoryRow :=
  fetched_history env chatId 10 (with_user_turn env chatId msg s).

Definition turn_prompt (env : environment) (chatId : row_id) (msg : jsstring)
           (s : store) : jsstring :=
  buildContextPrompt msg (turn_history env chatId msg s).

(** testGeminiAPI (lines 165-204), on what its own request comes back with:
    [response.ok && data.candidates], and [false] when anything rejects. *)
Definition testGeminiAPI (answer : gen_outcome) : bool :=
  match answer with
  | FetchThrows _ => false
  | FetchResponse ok _ _ data =>
      ok && match candidates data with Some _ => true | None => false end
  end.

(** Every identifier found in the tables was issued before [next_id]. *)
Definition ids_issued (s : store) : bool :=
  forallb (fun r => N.ltb (cs_id r) (next_id s)) (chat_sessions s) &&
  forallb (fun m => N.ltb (cm_chat_id m) (next_id s)) (chat_messages s).

(** User [u] has at least one session. *)
Definition owns_any (s : store) (u : jsstring) : bool :=
  existsb (session_of_user u) (chat_sessions s).

(** The error texts of a failed generation that the server words itself. *)
Definition worded_by_server : list jsstring :=
  [safety_message;
   lit "Invalid or expired API key. Please check your Gemini API key.";
   lit "API quota exceeded. Please check your Gemini API usage.";
   lit "No response generated by Gemini API";
   lit "Gemini API error"].

(** The candidate list of a success answer. *)
Definition candidates_of_ok (answer : gen_outcome) : option (list candidate) :=
  match answer with
  | FetchResponse true _ _ data => candidates data
  | _ => None
  end.

(* ------------------------------------------------------------------ *)
(** ** The single-page client (App.jsx)

    The component's state is a record; an event handler is a function from
    the state it was created in to the state after all its updates.  The
    server is the one modelled above: a request either does not get through
    (fetch rejects) or is handled by the server under some environment. *)

Module Client.

Definition BACKEND_URL : jsstring := lit "http://localhost:5000".

(** A line of the transcript: [{ role, message, timestamp }]. *)
Record entry := mkEntry {
  e_role : jsstring;
  e_message : jsstring;
  e_timestamp : option timestamp
}.

Record app := mkApp {
  messages : list entry;
  input : jsstring;
  isLoading : bool;
  currentChatId : option row_id;
  chatSessions : list ChatSession;
  userId : jsstring;
  connectionError : option jsstring
}.

Definition setMessages (f : list entry -> list entry) (a : app) : app :=
  mkApp (f (messages a)) (input a) (isLoading a) (currentChatId a) (chatSessions a)
        (userId a) (connectionError a).
Definition setInput (v : jsstring) (a : app) : app :=
  mkApp (messages a) v (isLoading a) (currentChatId a) (chatSessions a)
        (userId a) (connectionError a).
Definition setIsLoading (v : bool) (a : app) : app :=
  mkApp (messages a) (input a) v (currentChatId a) (chatSessions a)
        (userId a) (connectionError a).
Definition setCurrentChatId (v : option row_id) (a : app) : app :=
  mkApp (messages a) (input a) (isLoading a) v (chatSessions a)
        (userId a) (connectionError a).
Definition setChatSessions (v : list ChatSession) (a : app) : app :=
  mkApp (messages a) (input a) (isLoading a) (currentChatId a) v
        (userId a) (connectionError a).
Definition setConnectionError (v : option jsstring) (a : app) : app :=
  mkApp (messages a) (input a) (isLoading a) (currentChatId a) (chatSessions a)
        (userId a) v.

(** White space and line terminators, as [String.prototype.trim] strips them. *)
Definition is_space (c : code_unit) : bool :=
  existsb (N.eqb c)
          [9; 10; 11; 12; 13; 32; 160; 5760; 8192; 8193; 8194; 8195; 8196; 8197;
           8198; 8199; 8200; 8201; 8202; 8232; 8233; 8239; 8287; 12288; 65279]%N.

Fixpoint trimStart (s : jsstring) : jsstring :=
  match s with
  | [] => []
  | c :: rest => if is_space c then trimStart rest else s
  end.

Definition trim (s : jsstring) : jsstring := rev (trimStart (rev (trimStart s))).

(** The way to the server: the request does not get through and [fetch]
    rejects with [reason], or the server handles it under [env]. *)
Inductive link :=
| Down (reason : jsstring)
| Up (env : environment).

(** [await fetch(...)] against a handler of the server.  The handlers never
    reject, so the third case is never taken. *)
Definition request (l : link) (handler : environment -> M response) (w : world)
  : (jsstring + response) * world :=
  match l with
  | Down reason => (inl reason, w)
  | Up env =>
      match handler env w with
      | (Val resp, w') => (inr resp, w')
      | (Exn e, w') => (inl e, w')
      end
  end.

(** [response.ok]. *)
Definition ok (resp : response) : bool :=
  N.leb 200 (status resp) && N.leb (status resp) 299.

Definition greeting : entry :=
  mkEntry (lit "bot")
    (lit "Hello! I'm your AI assistant. I can help answer questions about various topics and remember our conversation context. What would you like to know?")
    None.

Definition startNewChat (a : app) : app :=
  setMessages (fun _ => [greeting]) (setCurrentChatId None a).

Definition loadChatSessions (l : link) (a : app) (w : world) : app * world :=
  match request l (fun env => get_chat_sessions env (userId a)) w with
  | (inr resp, w') =>
      if ok resp then
        match payload resp with
        | SessionList sessions =>
            (setConnectionError None (setChatSessions sessions a), w')
        | _ => (a, w')
        end
      else (setConnectionError (Some (lit "Failed to connect to backend server")) a, w')
  | (inl _, w') =>
      (setConnectionError (Some (lit "Failed to connect to backend server")) a, w')
  end.

Definition loadChatMessages (l : link) (chatId : row_id) (a : app) (w : world)
  : app * world :=
  match request l (fun env => get_chat_messages env chatId) w with
  | (inr resp, w') =>
      if ok resp then
        match payload resp with
        | MessageList messagesData =>
            (setConnectionError None
               (setMessages
                  (fun _ => map (fun msg => mkEntry (cm_role msg) (cm_content msg)
                                                    (Some (cm_created_at msg)))
                                messagesData)
                  a),
             w')
        | _ => (a, w')
        end
      else (setConnectionError (Some (lit "Failed to load chat messages")) a, w')
  | (inl _, w') =>
      (setConnectionError (Some (lit "Failed to load chat messages")) a, w')
  end.

Definition same_chat (current : option row_id) (chatId : row_id) : bool :=
  match current with Some c => N.eqb c chatId | None => false end.

Definition deleteChatSession (ldelete llist : link) (chatId : row_id) (a : app)
           (w : world) : app * world :=
  match request ldelete (fun env => delete_chat_session env chatId) w with
  | (inr resp, w1) =>
      if ok resp then
        let (a1, w2) := loadChatSessions llist a w1 in
        let a2 := if same_chat (currentChatId a) chatId then startNewChat a1 else a1 in
        (setConnectionError None a2, w2)
      else (setConnectionError (Some (lit "Failed to delete chat session")) a, w1)
  | (inl _, w1) =>
      (setConnectionError (Some (lit "Failed to delete chat session")) a, w1)
  end.

Definition switchToChat (l : link) (chatId : row_id) (a : app) (w : world)
  : app * world :=
  loadChatMessages l chatId (setCurrentChatId (Some chatId) a) w.

(** U+26A0 U+FE0F and a space, the prefix of an error line. *)
Definition warning : jsstring := [9888; 65039; 32]%N.

(** The catch block of sendMessage (lines 142-162), then [finally]. *)
Definition showError (errMessage : jsstring) (a : app) : app :=
  let a1 :=
    if includes errMessage (lit "fetch")
    then setConnectionError (Some (lit "Backend server not accessible")) a
    else a in
  let errorMessage :=
    if includes errMessage (lit "fetch") then
      lit "Cannot connect to the server. Make sure your backend is running on "
          +++ BACKEND_URL
    else if includes errMessage (lit "API Key") then
      lit "API configuration error. Please check your Gemini API key."
    else lit "Error: " +++ errMessage in
  setIsLoading false
    (setMessages (fun prev => prev ++ [mkEntry (lit "bot") (warning +++ errorMessage) None])
                 a1).

(** [errorData.details || errorData.error || `Server error: ${status}`]. *)
Definition errorText (resp : response) : jsstring :=
  let fallback := lit "Server error: " +++ of_number (status resp) in
  match payload resp with
  | ErrorBody error details => or_else (field details) (or_else error fallback)
  | _ => fallback
  end.

Definition sendMessage (lchat llist : link) (a : app) (w : world) : app * world :=
  if negb (truthy (trim (input a))) || isLoading a then (a, w)
  else
    let userMessage := mkEntry (lit "user") (input a) None in
    let currentInput := input a in
    let a1 := setMessages (fun prev => prev ++ [userMessage])
                          (setIsLoading true (setInput [] a)) in
    match request lchat
            (fun env => post_chat env (mkRequest (Some (userId a)) (Some currentInput)
                                                 (currentChatId a))) w with
    | (inr resp, w1) =>
        if ok resp then
          match payload resp with
          | ChatReply reply chatId _ =>
              let a2 := setMessages (fun prev => prev ++ [mkEntry (lit "bot") reply None])
                                    a1 in
              let a3 := match currentChatId a with
                        | None => setCurrentChatId (Some chatId) a2
                        | Some _ => a2
                        end in
              let (a4, w2) := loadChatSessions llist a3 w1 in
              (setIsLoading false (setConnectionError None a4), w2)
          | _ => (setIsLoading false a1, w1)
          end
        else (showError (errorText resp) a1, w1)
    | (inl reason, w1) => (showError reason a1, w1)
    end.

(** A visitor who has typed "Hello" into a new chat, and one who is in chat 1
    of the sample store. *)
Definition visitor : app :=
  mkApp [greeting] (lit "Hello") false None [] (lit "user_k3x9q2m1z") None.

Definition regular : app :=
  mkApp [greeting] (lit "Hello") false (Some 1%N) [] (lit "alice") None.

(** A client of user "bob", who has no chat open. *)
Definition outsider : app :=
  mkApp [greeting] [] false None [] (lit "bob") None.

End Client.

(* ------------------------------------------------------------------ *)
(** ** Strings and lists *)

Lemma eqb_eq (a b : jsstring) : eqb a b = true <-> a = b.
Proof.
  revert b; induction a as [|x a IH]; intros [|y b]; simpl; split; intro H;
    try reflexivity; try discriminate.
  - apply andb_true_iff in H as [Hx Ha].
    apply N.eqb_eq in Hx; apply IH in Ha; congruence.
  - injection H as -> ->. rewrite N.eqb_refl. simpl. now apply IH.
Qed.

Lemma eqb_refl (a : jsstring) : eqb a a = true.
Proof. now apply eqb_eq. Qed.

Lemma eqb_neq (a b : jsstring) : eqb a b = false <-> a <> b.
Proof.
  split; intro H.
  - intro E. apply eqb_eq in E. congruence.
  - destruct (eqb a b) eqn:E; [apply eqb_eq in E; contradiction | reflexivity].
Qed.

Lemma fold_left_append {A} (f : A -> jsstring) (l : list A) (acc : jsstring) :
  fold_left (fun a x => a +++ f x) l acc = acc +++ concat (map f l).
Proof.
  revert acc; induction l as [|x l IH]; intro acc; simpl.
  - now rewrite app_nil_r.
  - rewrite IH. now rewrite <- app_assoc.
Qed.

Lemma slice_last_split {A} (n : nat) (l : list A) :
  l = firstn (length l - n) l ++ slice_last n l.
Proof. unfold slice_last. now rewrite firstn_skipn. Qed.

Lemma slice_last_length {A} (n : nat) (l : list A) :
  length (slice_last n l) = Nat.min n (length l).
Proof. unfold slice_last. rewrite length_skipn. lia. Qed.

Section OrderFacts.
Variable A : Type.
Variable key : A -> N.
Variable asc : bool.

Lemma place_length (x : A) (l : list A) :
  length (place key asc x l) = S (length l).
Proof.
  induction l as [|y l IH]; simpl; [reflexivity|].
  destruct (goes_before key asc x y); simpl; [reflexivity | now rewrite IH].
Qed.

Lemma order_length (l : list A) : length (order key asc l) = length l.
Proof.
  induction l as [|x l IH]; simpl; [reflexivity|].
  now rewrite place_length, IH.
Qed.

Lemma place_In (x y : A) (l : list A) :
  In y (place key asc x l) <-> y = x \/ In y l.
Proof.
  induction l as [|z l IH]; simpl.
  - intuition congruence.
  - destruct (goes_before key asc x z); simpl; rewrite ?IH; intuition congruence.
Qed.

Lemma order_In (y : A) (l : list A) : In y (order key asc l) <-> In y l.
Proof.
  induction l as [|x l IH]; simpl; [reflexivity|].
  rewrite place_In, IH. intuition congruence.
Qed.

Lemma order_nil_inv (l : list A) : order key asc l = [] -> l = [].
Proof.
  intro H. apply (f_equal (@length A)) in H. rewrite order_length in H.
  now destruct l.
Qed.
End OrderFacts.

(* ------------------------------------------------------------------ *)
(** ** The context builder *)

Lemma role_label_user : role_label (lit "user") = lit "User".
Proof. reflexivity. Qed.

Lemma role_label_other (r : jsstring) :
  r <> lit "user" -> role_label r = lit "Assistant".
Proof. intro H. unfold role_label. apply eqb_neq in H. now rewrite H. Qed.

Lemma buildContextPrompt_empty (currentMessage : jsstring) :
  buildContextPrompt currentMessage [] =
  preamble +++ generic_instruction +++ currentMessage.
Proof. reflexivity. Qed.

Lemma buildContextPrompt_history (currentMessage : jsstring) (h : list HistoryRow) :
  h <> [] ->
  buildContextPrompt currentMessage h =
  preamble +++ history_header +++ concat (map rendered (slice_last 10 h))
           +++ context_instruction +++ currentMessage.
Proof.
  intro Hne. unfold buildContextPrompt.
  destruct h as [|m h]; [contradiction|].
  change (0 <? length (m :: h)) with true. cbv iota zeta.
  rewrite (fold_left_append rendered).
  now rewrite <- !app_assoc.
Qed.

(** C6.  With no history the prompt is the fixed preamble, the generic
    respond-clearly instruction and the current message, in that order and
    with nothing after the message.  With history the prompt is the preamble,
    the history header, the last (at most ten) entries of the history in
    their original order, each as ["<Role>: <content>"] on a line of its own
    with label "User" for role "user" and "Assistant" for every other role,
    then the context instruction and the current message at the very end. *)
Theorem context_builder_output (currentMessage : jsstring) (h : list HistoryRow) :
  (h = [] ->
     let p := buildContextPrompt currentMessage h in
     begins_with p preamble /\
     contains p generic_instruction /\
     ends_with p currentMessage /\
     length p = length preamble + length generic_instruction + length currentMessage) /\
  (h <> [] ->
     exists older recent,
       h = older ++ recent /\
       length recent = Nat.min 10 (length h) /\
       buildContextPrompt currentMessage h =
       preamble +++ history_header +++ concat (map rendered recent)
                +++ context_instruction +++ currentMessage /\
       ends_with (buildContextPrompt currentMessage h) currentMessage /\
       (forall m, In m recent ->
          rendered m =
          (if eqb (role m) (lit "user") then lit "User" else lit "Assistant")
            +++ lit ": " +++ content m +++ nl)) /\
  role_label (lit "user") = lit "User" /\
  (forall r, r <> lit "user" -> role_label r = lit "Assistant").
Proof.
  split; [|split; [|split]].
  - intros ->. cbv zeta. rewrite buildContextPrompt_empty.
    split; [|split; [|split]].
    + now exists (generic_instruction +++ currentMessage).
    + exists preamble, currentMessage. reflexivity.
    + exists (preamble +++ generic_instruction). now rewrite <- app_assoc.
    + rewrite !length_app. lia.
  - intro Hne.
    exists (firstn (length h - 10) h), (slice_last 10 h).
    split; [apply slice_last_split|].
    split; [apply slice_last_length|].
    split; [now apply buildContextPrompt_history|].
    split.
    + rewrite (buildContextPrompt_history currentMessage Hne).
      exists (preamble +++ history_header +++ concat (map rendered (slice_last 10 h))
                       +++ context_instruction).
      now rewrite <- !app_assoc.
    + intros m _. reflexivity.
  - exact role_label_user.
  - exact role_label_other.
Qed.

(* ------------------------------------------------------------------ *)
(** ** The derived session title *)

Lemma derive_title_truthy (msg : jsstring) :
  truthy (derive_title msg) = truthy msg.
Proof.
  unfold derive_title, substring0.
  destruct (50 <? length msg) eqn:E; [|reflexivity].
  apply Nat.ltb_lt in E.
  destruct msg as [|c msg]; [simpl in E; lia | reflexivity].
Qed.

(** C5, as the code has it.  A message of at most 50 code units is its own
    title; a longer one gives its first 50 code units followed by three full
    stops (three code units, not the single character U+2026), so such a
    title has exactly 53 code units. *)
Theorem derived_title (msg : jsstring) :
  (length msg <= 50 -> derive_title msg = msg) /\
  (50 < length msg ->
     derive_title msg = firstn 50 msg +++ lit "..." /\
     length (derive_title msg) = 53).
Proof.
  unfold derive_title, substring0.
  destruct (50 <? length msg) eqn:E.
  - apply Nat.ltb_lt in E. split; [lia|].
    intros _. split; [reflexivity|].
    rewrite length_app, length_firstn.
    change (length (lit "...")) with 3. lia.
  - apply Nat.ltb_ge in E. split; [reflexivity | lia].
Qed.

Lemma derived_title_witness :
  derive_title (lit "Hello") = lit "Hello" /\
  derive_title Sample.long_message = firstn 50 Sample.long_message +++ lit "...".
Proof.
  split.
  - apply (proj1 (derived_title (lit "Hello"))). vm_compute. lia.
  - apply (proj2 (derived_title Sample.long_message)). vm_compute. lia.
Defined.

(** C5 as stated fails: the title of a message of 51 code units does not end
    with the single ellipsis character. *)
Lemma title_has_no_ellipsis_character :
  length Sample.long_message = 51 /\
  derive_title Sample.long_message <> firstn 50 Sample.long_message +++ ellipsis.
Proof.
  split; [reflexivity|].
  intro H. apply (f_equal (@length code_unit)) in H. vm_compute in H. discriminate.
Qed.

(* ------------------------------------------------------------------ *)
(** ** How each server function runs *)

Lemma store_call_run {A} env st (op : store -> A * store) w :
  store_call env st op w =
  match store_fault env st with
  | NoFault => (Val (mkReply (Some (fst (op (db w)))) None),
                mkWorld (snd (op (db w))) (log w ++ [EvStore st]))
  | ReturnsError e => (Val (mkReply None (Some e)), logged w (EvStore st))
  | Throws e => (Exn e, logged w (EvStore st))
  end.
Proof.
  unfold store_call, bind, emit, ret, throw, logged.
  destruct (store_fault env st); simpl; try reflexivity.
  now destruct (op (db w)).
Qed.

Ltac run_store :=
  unfold try_catch, bind, ret, throw; rewrite !store_call_run; unfold logged, effect_of.

Lemma saveMessage_run env st cid r c w :
  exists v, saveMessage env st cid r c w =
    (Val v, mkWorld (effect_of env st (fun s => snd (q_insert_message cid r c s)) (db w))
                    (log w ++ [EvStore st])).
Proof.
  unfold saveMessage. run_store.
  destruct (store_fault env st); simpl; eauto.
Qed.

Lemma getChatHistory_run env cid lim w :
  getChatHistory env cid lim w =
  (Val (fetched_history env cid lim (db w)), logged w (EvStore SiteHistory)).
Proof.
  unfold getChatHistory, fetched_history. run_store.
  destruct (store_fault env SiteHistory); reflexivity.
Qed.

Lemma updateChatSession_run env cid w :
  updateChatSession env cid w =
  (Val tt, mkWorld (effect_of env SiteTouch (q_touch_session cid) (db w))
                   (log w ++ [EvStore SiteTouch])).
Proof.
  unfold updateChatSession. run_store.
  destruct (store_fault env SiteTouch); reflexivity.
Qed.

Lemma generate_run env p w :
  generate env p w = (generation_result env p, logged w (EvGenerate p)).
Proof.
  unfold generation_result, generate, bind, emit, ret, throw, logged.
  destruct (backend env) as [e|ok code st d]; simpl; [reflexivity|].
  destruct ok; simpl.
  - destruct (candidates d) as [[|c cs]|]; try reflexivity.
    destruct (match finishReason c with
              | Some reason => eqb reason (lit "SAFETY")
              | None => false
              end); reflexivity.
  - destruct (error_message d) as [m|]; [|reflexivity].
    destruct (includes m (lit "API key")); [reflexivity|].
    destruct (includes m (lit "quota")); reflexivity.
Qed.

Lemma generation_result_blocked env p :
  safety_blocked (backend env) -> generation_result env p = Exn safety_message.
Proof.
  intros (code & st & err & top & others & Hb & Hf).
  unfold generation_result, generate, bind, emit. rewrite Hb. simpl. rewrite Hf.
  reflexivity.
Qed.

Lemma run_turn_run env msg cs w :
  let s1 := with_user_turn env (cs_id cs) msg (db w) in
  let h := fetched_history env (cs_id cs) 10 s1 in
  let p := buildContextPrompt msg h in
  run_turn env msg cs w =
  match generation_result env p with
  | Exn e =>
      (Exn e, mkWorld s1 (log w ++ [EvStore SiteSaveUser; EvStore SiteHistory;
                                    EvGenerate p]))
  | Val reply =>
      (Val (json (ChatReply reply (cs_id cs) (0 <? length h))),
       mkWorld (effect_of env SiteTouch (q_touch_session (cs_id cs))
                          (with_bot_turn env (cs_id cs) reply s1))
               (log w ++ [EvStore SiteSaveUser; EvStore SiteHistory; EvGenerate p;
                          EvStore SiteSaveBot; EvStore SiteTouch]))
  end.
Proof.
  cbv zeta. unfold run_turn, with_user_turn, with_bot_turn.
  unfold bind at 1.
  destruct (saveMessage_run env SiteSaveUser (cs_id cs) (lit "user") msg w) as [v ->].
  unfold bind at 1. rewrite getChatHistory_run. unfold logged at 1. cbn [db log].
  unfold bind at 1. rewrite generate_run. unfold logged. cbn [db log].
  rewrite <- !app_assoc. cbn [app].
  destruct (generation_result env _) as [reply|e]; [|reflexivity].
  unfold bind at 1.
  match goal with
  | |- context [saveMessage env SiteSaveBot ?c ?r ?m ?w0] =>
      destruct (saveMessage_run env SiteSaveBot c r m w0) as [v' ->]
  end.
  unfold bind, ret. rewrite updateChatSession_run. cbn [db log].
  rewrite <- !app_assoc. reflexivity.
Qed.

Lemma post_chat_run env req w :
  well_formed req ->
  post_chat env req w =
  match resolve_session env (field (userId req)) (field (message req)) (chatId req) w with
  | (Val None, w1) => (Val session_failure, w1)
  | (Val (Some cs), w1) =>
      try_catch (run_turn env (field (message req)) cs)
                (fun err => ret (internal_error err)) w1
  | (Exn e, w1) => (Val (internal_error e), w1)
  end.
Proof.
  intros [Hu Hm]. unfold post_chat. rewrite Hu, Hm. cbn [negb orb].
  unfold try_catch, bind at 1.
  destruct (resolve_session env _ _ _ w) as [[[cs|]|e] w1]; try reflexivity.
Qed.

Lemma post_chat_invalid env req w :
  truthy_opt (userId req) = false \/ truthy_opt (message req) = false ->
  post_chat env req w =
  (Val (status_json 400 (ErrorBody (lit "userId and message are required") None)), w).
Proof.
  intro H. unfold post_chat, try_catch.
  destruct H as [-> | ->]; [|rewrite orb_true_r]; reflexivity.
Qed.

Lemma getOrCreate_titled env uid t w :
  truthy t = true ->
  getOrCreateChatSession env uid (Some t) w =
  match store_fault env SiteCreate with
  | NoFault => (Val (Some (fst (q_insert_session uid t (db w)))),
                mkWorld (snd (q_insert_session uid t (db w)))
                        (log w ++ [EvStore SiteCreate]))
  | _ => (Val None, logged w (EvStore SiteCreate))
  end.
Proof.
  intro Ht. unfold getOrCreateChatSession.
  cbn [truthy_opt field]. unfold or_else. rewrite Ht. cbn [negb].
  run_store.
  destruct (store_fault env SiteCreate); reflexivity.
Qed.

Lemma getOrCreate_reuse env uid title w row rest :
  truthy_opt title = false ->
  store_fault env SiteRecent = NoFault ->
  q_recent_session uid (db w) = row :: rest ->
  getOrCreateChatSession env uid title w = (Val (Some row), logged w (EvStore SiteRecent)).
Proof.
  intros Ht Hf Hq. unfold getOrCreateChatSession. rewrite Ht. cbn [negb].
  run_store. rewrite Hf. unfold reading. cbn [fst snd data error]. rewrite Hq.
  reflexivity.
Qed.

Lemma resolve_session_fresh env uid msg w :
  resolve_session env uid msg None w =
  getOrCreateChatSession env uid (Some (derive_title msg)) w.
Proof. reflexivity. Qed.

Ltac settle_log :=
  cbn [error data fst snd reading db log];
  let H := fresh in
  intro H; injection H as <- <-;
  cbn [log]; rewrite ?filter_app; cbn [filter is_generate]; rewrite ?app_nil_r; eauto.

Lemma getOrCreate_log env uid title w r w1 :
  getOrCreateChatSession env uid title w = (r, w1) ->
  generation_calls w1 = generation_calls w /\ exists v, r = Val v.
Proof.
  unfold getOrCreateChatSession, generation_calls.
  destruct (truthy_opt title); cbn [negb]; run_store.
  - destruct (store_fault env SiteCreate); settle_log.
  - destruct (store_fault env SiteRecent); cbn [fst snd data error reading];
      [|settle_log|settle_log].
    destruct (q_recent_session uid (db w)) as [|row rest]; [|settle_log].
    rewrite store_call_run. unfold logged. cbn [db log].
    destruct (store_fault env SiteCreate); settle_log.
Qed.

Lemma resolve_session_log env uid msg cid w r w1 :
  resolve_session env uid msg cid w = (r, w1) ->
  generation_calls w1 = generation_calls w.
Proof.
  destruct cid as [c|].
  - unfold resolve_session. unfold bind at 1. unfold bind at 1. rewrite store_call_run.
    assert (Hl : forall w0 : world,
               generation_calls (logged w0 (EvStore SiteLookup)) = generation_calls w0).
    { intro w0. unfold generation_calls, logged. cbn [log].
      rewrite filter_app. cbn. now rewrite app_nil_r. }
    destruct (store_fault env SiteLookup); unfold ret, reading; cbn [fst snd data].
    + destruct (q_session_of c uid (db w)) as [cs|].
      * intro H; injection H as <- <-. apply (Hl w).
      * intro H. apply getOrCreate_log in H as [H _]. rewrite H. apply (Hl w).
    + intro H. apply getOrCreate_log in H as [H _]. rewrite H. apply (Hl w).
    + intro H; injection H as <- <-. apply (Hl w).
  - intro H. rewrite resolve_session_fresh in H. now apply getOrCreate_log in H.
Qed.

Lemma delete_chat_session_run env cid w :
  delete_chat_session env cid w =
  match store_fault env SiteDeleteMessages with
  | Throws _ => (Val delete_failure, logged w (EvStore SiteDeleteMessages))
  | _ =>
      let s1 := effect_of env SiteDeleteMessages (q_delete_messages cid) (db w) in
      let trace := log w ++ [EvStore SiteDeleteMessages; EvStore SiteDeleteSession] in
      match store_fault env SiteDeleteSession with
      | NoFault => (Val delete_success, mkWorld (q_delete_session cid s1) trace)
      | _ => (Val delete_failure, mkWorld s1 trace)
      end
  end.
Proof.
  unfold delete_chat_session. run_store. unfold writing.
  destruct (store_fault env SiteDeleteMessages); cbn [fst snd db log];
    try reflexivity;
    rewrite store_call_run; unfold logged; cbn [fst snd db log];
    destruct (store_fault env SiteDeleteSession); cbn [fst snd db log error];
    rewrite <- ?app_assoc; reflexivity.
Qed.

Lemma get_chat_messages_run env cid w :
  get_chat_messages env cid w =
  (Val (match store_fault env SiteListMessages with
        | NoFault => json (MessageList (q_messages_of cid (db w)))
        | _ => status_json 500 (ErrorBody (lit "Failed to fetch chat messages") None)
        end),
   logged w (EvStore SiteListMessages)).
Proof.
  unfold get_chat_messages. run_store.
  destruct (store_fault env SiteListMessages); reflexivity.
Qed.

Lemma get_chat_sessions_run env uid w :
  get_chat_sessions env uid w =
  (Val (match store_fault env SiteListSessions with
        | NoFault => json (SessionList (q_sessions_of_user uid (db w)))
        | _ => status_json 500 (ErrorBody (lit "Failed to fetch chat sessions") None)
        end),
   logged w (EvStore SiteListSessions)).
Proof.
  unfold get_chat_sessions. run_store.
  destruct (store_fault env SiteListSessions); reflexivity.
Qed.

(* ------------------------------------------------------------------ *)
(** ** Session resolution failures *)

(** C7.  When the resolution step of a valid POST /chat request ends without
    a session (it yields no session, or the lookup rejects), the handler
    answers 500 right there: nothing runs after the resolution step, the
    answer is the "Failed to create/get chat session" error when the step
    yielded no session, and the run contains no generation call beyond those
    already logged. *)
Theorem unresolved_session_aborts env req w r w1 :
  well_formed req ->
  resolve_session env (field (userId req)) (field (message req)) (chatId req) w = (r, w1) ->
  (forall cs, r <> Val (Some cs)) ->
  exists resp,
    post_chat env req w = (Val resp, w1) /\
    status resp = 500%N /\
    (r = Val None -> resp = session_failure) /\
    (forall e, r = Exn e -> resp = internal_error e) /\
    generation_calls w1 = generation_calls w.
Proof.
  intros Hreq Hres Hnone.
  pose proof (resolve_session_log _ _ _ _ _ Hres) as Hlog.
  rewrite (post_chat_run env w Hreq), Hres.
  destruct r as [[cs|]|e].
  - exfalso. now apply (Hnone cs).
  - exists session_failure. repeat split; trivial; discriminate.
  - exists (internal_error e). repeat split; trivial; try discriminate.
    intros e' [= ->]. reflexivity.
Qed.

Lemma unresolved_session_aborts_witness :
  exists resp,
    post_chat Sample.no_create Sample.hello (start empty_store)
    = (Val resp, logged (start empty_store) (EvStore SiteCreate)) /\
    status resp = 500%N /\
    (Val (@None ChatSession) = Val None -> resp = session_failure) /\
    (forall e, Val (@None ChatSession) = Exn e -> resp = internal_error e) /\
    generation_calls (logged (start empty_store) (EvStore SiteCreate))
    = generation_calls (start empty_store).
Proof.
  apply (@unresolved_session_aborts Sample.no_create Sample.hello (start empty_store)
           (Val None) (logged (start empty_store) (EvStore SiteCreate))).
  - split; reflexivity.
  - reflexivity.
  - discriminate.
Defined.

(* ------------------------------------------------------------------ *)
(** ** The safety filter *)

(** C4, as the code has it.  When the session of a valid request is resolved
    and the backend's top candidate has finish reason "SAFETY", the handler
    answers with status 500 and error "Internal server error"; the
    content-filtered message travels in the [details] field.  No reply is
    returned and the run stops at the generation call: no assistant message
    is written and the session is not touched. *)
Theorem safety_block_response env req w cs w1 :
  well_formed req ->
  resolve_session env (field (userId req)) (field (message req)) (chatId req) w
  = (Val (Some cs), w1) ->
  safety_blocked (backend env) ->
  exists prompt,
    post_chat env req w =
    (Val (internal_error safety_message),
     mkWorld (with_user_turn env (cs_id cs) (field (message req)) (db w1))
             (log w1 ++ [EvStore SiteSaveUser; EvStore SiteHistory; EvGenerate prompt])).
Proof.
  intros Hreq Hres Hblock.
  rewrite (post_chat_run env w Hreq), Hres.
  unfold try_catch. rewrite run_turn_run. cbv zeta.
  rewrite generation_result_blocked by exact Hblock.
  eexists. reflexivity.
Qed.

Lemma safety_block_response_witness :
  exists prompt,
    post_chat Sample.filtered Sample.hello (start empty_store) =
    (Val (internal_error safety_message),
     mkWorld (with_user_turn Sample.filtered 1%N (lit "Hello") (db Sample.after_create))
             (log Sample.after_create
                  ++ [EvStore SiteSaveUser; EvStore SiteHistory; EvGenerate prompt])).
Proof.
  apply (@safety_block_response Sample.filtered Sample.hello (start empty_store)
           Sample.first_session Sample.after_create).
  - split; reflexivity.
  - reflexivity.
  - unfold safety_blocked. do 5 eexists. split; reflexivity.
Defined.

(** C4 as stated fails: on a first "Hello" whose only candidate is stopped by
    the safety filter, the answer is the 500 "Internal server error" response,
    with the content-filtered text in [details]. *)
Lemma safety_block_is_internal_error :
  fst (post_chat Sample.filtered Sample.hello (start empty_store)) =
  Val (mkResponse 500 (ErrorBody (lit "Internal server error") (Some safety_message))).
Proof. vm_compute. reflexivity. Qed.

(* ------------------------------------------------------------------ *)
(** ** Failures of the history read *)

Lemma fetched_history_fault env cid lim s :
  store_fault env SiteHistory <> NoFault -> fetched_history env cid lim s = [].
Proof.
  unfold fetched_history. destruct (store_fault env SiteHistory); congruence.
Qed.

(** C10.  When the history read returns an error or rejects, getChatHistory
    yields the empty list and never raises.  The turn goes on: the generation
    call is made with the prompt built from no history, a turn whose
    generation succeeds answers 200 with contextUsed = false, and no run of
    POST /chat answers with contextUsed = true. *)
Theorem history_failure_is_swallowed env :
  store_fault env SiteHistory <> NoFault ->
  (forall chatId lim w,
     getChatHistory env chatId lim w = (Val [], logged w (EvStore SiteHistory))) /\
  (forall msg cs w,
     In (EvGenerate (buildContextPrompt msg [])) (log (snd (run_turn env msg cs w))) /\
     (forall reply,
        generation_result env (buildContextPrompt msg []) = Val reply ->
        fst (run_turn env msg cs w) = Val (json (ChatReply reply (cs_id cs) false)))) /\
  (forall req w code reply cid used w',
     post_chat env req w = (Val (mkResponse code (ChatReply reply cid used)), w') ->
     used = false).
Proof.
  intro Hf. split; [|split].
  - intros chatId lim w. rewrite getChatHistory_run.
    now rewrite fetched_history_fault.
  - intros msg cs w. rewrite run_turn_run. cbv zeta.
    rewrite fetched_history_fault by exact Hf.
    destruct (generation_result env (buildContextPrompt msg [])) as [reply|e];
      cbn [fst snd log]; split.
    + apply in_or_app. right. simpl. tauto.
    + intros reply' [= <-]. reflexivity.
    + apply in_or_app. right. simpl. tauto.
    + discriminate.
  - intros req w code reply cid used w'.
    destruct (truthy_opt (userId req)) eqn:Hu;
      [destruct (truthy_opt (message req)) eqn:Hm|].
    + rewrite (@post_chat_run env req w (conj Hu Hm)).
      destruct (resolve_session env _ _ _ w) as [[[cs|]|e] w1]; try discriminate.
      unfold try_catch. rewrite run_turn_run. cbv zeta.
      rewrite fetched_history_fault by exact Hf.
      destruct (generation_result env _); [|discriminate].
      intros [= _ _ _ <-]. reflexivity.
    + rewrite post_chat_invalid by (now right). discriminate.
    + rewrite post_chat_invalid by (now left). discriminate.
Qed.

Lemma history_failure_is_swallowed_witness :
  fst (run_turn Sample.no_history (lit "Hello") Sample.first_session Sample.after_create)
  = Val (json (ChatReply (lit "Hi there") 1%N false)).
Proof.
  assert (H : store_fault Sample.no_history SiteHistory <> NoFault) by discriminate.
  apply (proj2 (proj1 (proj2 (@history_failure_is_swallowed Sample.no_history H))
                      (lit "Hello") Sample.first_session Sample.after_create)).
  reflexivity.
Defined.

(* ------------------------------------------------------------------ *)
(** ** The context flag of a turn *)

Lemma q_history_after_insert chatId r c s :
  q_history chatId 10 (snd (q_insert_message chatId r c s)) <> [].
Proof.
  unfold q_history, q_messages_of, q_insert_message, limit. cbn [snd chat_messages].
  rewrite filter_app. cbn [filter cm_chat_id]. rewrite N.eqb_refl.
  intro H. apply (f_equal (@length HistoryRow)) in H.
  rewrite length_map, length_firstn, order_length, length_app in H.
  cbn [length] in H. lia.
Qed.

(** The flag follows the fetched history, and the history is fetched after
    the user's message has been written: whenever that write and the read go
    through, a completed turn reports contextUsed = true, whatever the
    session held before. *)
Lemma flag_counts_own_message env msg cs w code reply cid used w' :
  store_fault env SiteSaveUser = NoFault ->
  store_fault env SiteHistory = NoFault ->
  run_turn env msg cs w = (Val (mkResponse code (ChatReply reply cid used)), w') ->
  used = true.
Proof.
  intros Hs Hh. rewrite run_turn_run. cbv zeta.
  destruct (generation_result env _); [|discriminate].
  intros [= _ _ _ <-].
  unfold fetched_history, with_user_turn, effect_of. rewrite Hs, Hh.
  apply Nat.ltb_lt.
  pose proof (@q_history_after_insert (cs_id cs) (lit "user") msg (db w)) as Hne.
  destruct (q_history _ _ _); [contradiction | simpl; lia].
Qed.

(** C1 at a first turn.  POST /chat { userId: "u1", message: "Hello" } on an
    empty store, with every external call succeeding: the session is new and
    held nothing, yet the history fetched for the turn is the message just
    written and the answer carries contextUsed = true. *)
Theorem first_turn_reports_context_used :
  chat_messages empty_store = [] /\
  fetched_history Sample.quiet 1%N 10
    (with_user_turn Sample.quiet 1%N (lit "Hello") (db Sample.after_create))
  = [mkHistoryRow (lit "user") (lit "Hello") 2%N] /\
  fst (post_chat Sample.quiet Sample.hello (start empty_store))
  = Val (json (ChatReply (lit "Hi there") 1%N true)).
Proof. repeat split; vm_compute; reflexivity. Qed.

(* ------------------------------------------------------------------ *)
(** ** The history window *)

Lemma getChatHistory_oldest env chatId lim w :
  store_fault env SiteHistory = NoFault ->
  fst (getChatHistory env chatId lim w)
  = Val (map project (firstn lim (q_messages_of chatId (db w)))).
Proof.
  intro Hf. rewrite getChatHistory_run. unfold fetched_history. now rewrite Hf.
Qed.

(** C2 at a session of eleven messages written at times 1 to 11: the fetch
    yields the messages of times 1 to 10 (the oldest ten, ascending), whereas
    the ten most recent are those of times 2 to 11. *)
Theorem history_fetch_keeps_oldest :
  fst (getChatHistory Sample.quiet 7%N 10 (start Sample.crowded_store))
  = Val (map project (firstn 10 Sample.eleven)) /\
  map project (slice_last 10 (q_messages_of 7%N Sample.crowded_store))
  = map project (skipn 1 Sample.eleven) /\
  map created_at (map project (firstn 10 Sample.eleven))
  = [1; 2; 3; 4; 5; 6; 7; 8; 9; 10]%N /\
  map created_at (map project (skipn 1 Sample.eleven))
  = [2; 3; 4; 5; 6; 7; 8; 9; 10; 11]%N /\
  fst (getChatHistory Sample.quiet 7%N 10 (start Sample.crowded_store))
  <> Val (map project (slice_last 10 (q_messages_of 7%N Sample.crowded_store))).
Proof.
  split; [vm_compute; reflexivity|].
  split; [vm_compute; reflexivity|].
  split; [vm_compute; reflexivity|].
  split; [vm_compute; reflexivity|].
  vm_compute. discriminate.
Qed.

Lemma oldest_is_not_latest {A} (l : list A) (n : nat) :
  NoDup l -> 0 < n -> n < length l -> firstn n l <> slice_last n l.
Proof.
  unfold slice_last. intros Hnd Hpos Hlt.
  destruct l as [|x l]; [simpl in Hlt; lia|].
  destruct n as [|n]; [lia|].
  cbn [length] in *.
  replace (S (length l) - S n) with (S (length l - S n)) by lia.
  cbn [firstn skipn]. intro Heq.
  apply NoDup_cons_iff in Hnd as [Hx _]. apply Hx.
  rewrite <- (firstn_skipn (length l - S n) l).
  apply in_or_app. right. rewrite <- Heq. now left.
Qed.

(** In every session holding more than ten messages with pairwise distinct
    timestamps, what is fetched is the ten oldest, and these are not the ten
    most recent. *)
Lemma history_fetch_oldest_in_general env chatId w :
  store_fault env SiteHistory = NoFault ->
  10 < length (q_messages_of chatId (db w)) ->
  NoDup (map cm_created_at (q_messages_of chatId (db w))) ->
  fst (getChatHistory env chatId 10 w)
  = Val (map project (firstn 10 (q_messages_of chatId (db w)))) /\
  map project (firstn 10 (q_messages_of chatId (db w)))
  <> map project (slice_last 10 (q_messages_of chatId (db w))).
Proof.
  intros Hf Hlen Hnd. split; [now apply getChatHistory_oldest|].
  intro Heq. apply (f_equal (map created_at)) in Heq.
  rewrite !map_map in Heq. cbn [project created_at] in Heq.
  unfold slice_last in Heq. rewrite <- firstn_map, <- skipn_map in Heq.
  rewrite <- (length_map cm_created_at) in Heq.
  apply (@oldest_is_not_latest _ (map cm_created_at (q_messages_of chatId (db w))) 10);
    try assumption; try lia.
  rewrite length_map. exact Hlen.
Qed.

(* ------------------------------------------------------------------ *)
(** ** Session resolution without a session id *)

Lemma order_descending_head {A} (key : A -> N) (l : list A) :
  match order key false l with
  | [] => l = []
  | top :: _ => In top l /\ forall y, In y l -> (key y <= key top)%N
  end.
Proof.
  induction l as [|x l IH]; [reflexivity|].
  cbn [order]. destruct (order key false l) as [|top rest].
  - subst l. cbn. split; [now left|]. intros y [<-|[]]. lia.
  - destruct IH as [Hin Hmax]. cbn [place]. unfold goes_before.
    destruct (N.leb (key top) (key x)) eqn:E.
    + apply N.leb_le in E. split; [now left|].
      intros y [<-|Hy]; [lia|]. specialize (Hmax y Hy). lia.
    + apply N.leb_gt in E. split; [now right|].
      intros y [<-|Hy]; [lia|]. now apply Hmax.
Qed.

Lemma recent_session_is_latest uid s row rest :
  q_recent_session uid s = row :: rest ->
  In row (chat_sessions s) /\ cs_user_id row = uid /\
  forall r, In r (chat_sessions s) -> cs_user_id r = uid ->
            (cs_updated_at r <= cs_updated_at row)%N.
Proof.
  unfold q_recent_session, q_sessions_of_user, limit. intro H.
  pose proof (order_descending_head cs_updated_at
                (filter (fun r => eqb (cs_user_id r) uid) (chat_sessions s))) as Hh.
  destruct (order cs_updated_at false _) as [|top others]; [discriminate|].
  cbn [firstn] in H. injection H as <- _.
  destruct Hh as [Hin Hmax]. apply filter_In in Hin as [Hin Hu].
  apply eqb_eq in Hu. repeat split; trivial.
  intros r Hr Hru. apply Hmax. apply filter_In. split; [exact Hr|].
  now apply eqb_eq.
Qed.

Lemma recent_session_exists uid s r :
  In r (chat_sessions s) -> cs_user_id r = uid ->
  exists row rest, q_recent_session uid s = row :: rest.
Proof.
  intros Hin Hu. unfold q_recent_session, q_sessions_of_user, limit.
  destruct (order cs_updated_at false _) as [|top others] eqn:E.
  - apply order_nil_inv in E.
    assert (Hf : In r (filter (fun r0 => eqb (cs_user_id r0) uid) (chat_sessions s))).
    { apply filter_In. split; [exact Hin | now apply eqb_eq]. }
    rewrite E in Hf. destruct Hf.
  - cbn [firstn]. eauto.
Qed.

(** C3, as the code has it.  getOrCreateChatSession reuses the most recently
    updated session of the user only when it is called without a title.
    POST /chat always passes the title derived from its (non-empty) message,
    so resolving a request that omits chatId creates exactly one new session
    whenever the insert goes through, whether or not the user already has
    sessions; with no prior sessions that new session is the only one. *)
Theorem resolution_without_chat_id env uid :
  (forall title w r,
     truthy_opt title = false ->
     store_fault env SiteRecent = NoFault ->
     In r (chat_sessions (db w)) -> cs_user_id r = uid ->
     exists row,
       getOrCreateChatSession env uid title w
       = (Val (Some row), logged w (EvStore SiteRecent)) /\
       In row (chat_sessions (db w)) /\ cs_user_id row = uid /\
       forall r', In r' (chat_sessions (db w)) -> cs_user_id r' = uid ->
                  (cs_updated_at r' <= cs_updated_at row)%N) /\
  (forall msg w,
     truthy msg = true ->
     store_fault env SiteCreate = NoFault ->
     let fresh := mkSession (next_id (db w)) uid (derive_title msg)
                            (clock (db w)) (clock (db w)) in
     exists w',
       resolve_session env uid msg None w = (Val (Some fresh), w') /\
       chat_sessions (db w') = chat_sessions (db w) ++ [fresh] /\
       chat_messages (db w') = chat_messages (db w) /\
       log w' = log w ++ [EvStore SiteCreate]).
Proof.
  split.
  - intros title w r Ht Hf Hin Hu.
    destruct (recent_session_exists _ _ Hin Hu) as (row & rest & Hq).
    exists row. split; [now apply getOrCreate_reuse with (rest := rest)|].
    now apply recent_session_is_latest with (rest := rest).
  - intros msg w Hm Hf. cbv zeta.
    rewrite resolve_session_fresh, getOrCreate_titled.
    + rewrite Hf. eexists. split; [reflexivity|]. cbn. repeat split; reflexivity.
    + now rewrite derive_title_truthy.
Qed.

Lemma resolution_without_chat_id_witness :
  (exists row,
     getOrCreateChatSession Sample.quiet Sample.u1 None (start Sample.returning_store)
     = (Val (Some row), logged (start Sample.returning_store) (EvStore SiteRecent)) /\
     In row (chat_sessions Sample.returning_store) /\ cs_user_id row = Sample.u1 /\
     forall r', In r' (chat_sessions Sample.returning_store) ->
                cs_user_id r' = Sample.u1 ->
                (cs_updated_at r' <= cs_updated_at row)%N) /\
  (exists w',
     resolve_session Sample.quiet Sample.u1 (lit "Hello") None (start empty_store)
     = (Val (Some Sample.first_session), w') /\
     chat_sessions (db w') = [] ++ [Sample.first_session] /\
     chat_messages (db w') = [] /\
     log w' = [] ++ [EvStore SiteCreate]).
Proof.
  split.
  - apply (proj1 (resolution_without_chat_id Sample.quiet Sample.u1)
                 None (start Sample.returning_store) Sample.earlier_session).
    + reflexivity.
    + reflexivity.
    + simpl. left. reflexivity.
    + reflexivity.
  - apply (proj2 (resolution_without_chat_id Sample.quiet Sample.u1)
                 (lit "Hello") (start empty_store)).
    + reflexivity.
    + reflexivity.
Defined.

(** C3 as stated fails: [u1] already has a session (id 1, the most recently
    updated one), and a POST /chat without chatId runs in a new session with
    id 2, leaving two sessions in the table. *)
Lemma second_call_creates_another_session :
  q_recent_session Sample.u1 Sample.returning_store = [Sample.earlier_session] /\
  fst (post_chat Sample.quiet Sample.hello_again (start Sample.returning_store))
  = Val (json (ChatReply (lit "Hi there") 2%N true)) /\
  map cs_id (chat_sessions
               (db (snd (post_chat Sample.quiet Sample.hello_again
                                   (start Sample.returning_store)))))
  = [1%N; 2%N].
Proof. repeat split; vm_compute; reflexivity. Qed.

Lemma context_builder_output_witness :
  begins_with (buildContextPrompt (lit "Hello") []) preamble /\
  ends_with (buildContextPrompt (lit "Hello") []) (lit "Hello").
Proof.
  destruct (proj1 (context_builder_output (lit "Hello") []) eq_refl)
    as (Hb & _ & He & _).
  split; [exact Hb | exact He].
Defined.

(* ------------------------------------------------------------------ *)
(** ** Deleting a session and reading its messages *)

Lemma filter_absorb {A} (f g : A -> bool) (l : list A) :
  (forall x, In x l -> f x = true -> g x = true) ->
  filter f (filter g l) = filter f l.
Proof.
  induction l as [|x l IH]; intro H; [reflexivity|].
  cbn [filter]. destruct (g x) eqn:Eg.
  - cbn [filter]. rewrite IH; [reflexivity|].
    intros y Hy. apply H. now right.
  - destruct (f x) eqn:Ef.
    + rewrite (H x (or_introl eq_refl) Ef) in Eg. discriminate.
    + apply IH. intros y Hy. apply H. now right.
Qed.


Lemma not_owned_row s u c r :
  owns s u c = false -> In r (chat_sessions s) -> session_of_user u r = true ->
  N.eqb (cs_id r) c = false.
Proof.
  unfold owns. intros Ho Hin Hu.
  destruct (N.eqb (cs_id r) c) eqn:E; [|reflexivity].
  assert (Hex : existsb (fun r0 => N.eqb (cs_id r0) c && session_of_user u r0)
                        (chat_sessions s) = true).
  { apply existsb_exists. exists r. split; [exact Hin|]. now rewrite E, Hu. }
  congruence.
Qed.

Lemma not_owned_message s u c m :
  owns s u c = false -> message_of_user s u m = true -> N.eqb (cm_chat_id m) c = false.
Proof.
  unfold message_of_user. intros Ho Hm.
  destruct (N.eqb (cm_chat_id m) c) eqn:E; [|reflexivity].
  apply N.eqb_eq in E. congruence.
Qed.

Lemma delete_session_keeps_others s u c :
  owns s u c = false ->
  filter (session_of_user u) (chat_sessions (q_delete_session c s))
  = filter (session_of_user u) (chat_sessions s).
Proof.
  intro Ho. cbn [q_delete_session chat_sessions]. apply filter_absorb.
  intros r Hin Hu. now rewrite (@not_owned_row s u c r Ho Hin Hu).
Qed.

Lemma delete_messages_keeps_others s u c :
  owns s u c = false ->
  filter (message_of_user s u) (chat_messages (q_delete_messages c s))
  = filter (message_of_user s u) (chat_messages s).
Proof.
  intro Ho. cbn [q_delete_messages chat_messages]. apply filter_absorb.
  intros m _ Hm. now rewrite (@not_owned_message s u c m Ho Hm).
Qed.

(** The tables a DELETE can leave behind. *)
Lemma delete_chat_session_tables env c w :
  let s := db w in
  let s' := db (snd (delete_chat_session env c w)) in
  s' = s \/ s' = q_delete_messages c s \/ s' = q_delete_session c s \/
  s' = q_delete_session c (q_delete_messages c s).
Proof.
  cbv zeta. rewrite delete_chat_session_run. unfold effect_of, logged.
  destruct (store_fault env SiteDeleteMessages);
    destruct (store_fault env SiteDeleteSession); cbn [snd db]; tauto.
Qed.

(** C8, as the code has it.  DELETE /chat-sessions/:chatId and GET
    /chat-messages/:chatId are keyed by the session id alone; neither takes
    or checks a user id.  Whatever the store does, DELETE leaves each table
    as it was or without the rows of that id, so rows of other sessions stay;
    when both deletions go through no session row and no message of that id
    is left, whoever owned them.  GET changes nothing and, when it answers
    with a list, the list holds exactly the stored messages of that id.  As a
    consequence the sessions and messages of a user who has no session of
    that id are out of reach of both requests. *)
Theorem delete_and_read_are_keyed_by_session env chatId w :
  (let s := db w in
   let s' := db (snd (delete_chat_session env chatId w)) in
   (chat_sessions s' = chat_sessions s \/
    chat_sessions s' = filter (fun r => negb (N.eqb (cs_id r) chatId)) (chat_sessions s)) /\
   (chat_messages s' = chat_messages s \/
    chat_messages s' = filter (fun m => negb (N.eqb (cm_chat_id m) chatId))
                              (chat_messages s)) /\
   (forall r, In r (chat_sessions s) -> cs_id r <> chatId -> In r (chat_sessions s')) /\
   (forall m, In m (chat_messages s) -> cm_chat_id m <> chatId ->
              In m (chat_messages s')) /\
   (store_fault env SiteDeleteMessages = NoFault ->
    store_fault env SiteDeleteSession = NoFault ->
    (forall u, owns s' u chatId = false) /\
    (forall m, In m (chat_messages s') -> cm_chat_id m <> chatId)) /\
   (forall u, owns s u chatId = false ->
      filter (session_of_user u) (chat_sessions s')
      = filter (session_of_user u) (chat_sessions s) /\
      filter (message_of_user s u) (chat_messages s')
      = filter (message_of_user s u) (chat_messages s))) /\
  db (snd (get_chat_messages env chatId w)) = db w /\
  (forall code rows w',
     get_chat_messages env chatId w = (Val (mkResponse code (MessageList rows)), w') ->
     forall m, In m rows <-> In m (chat_messages (db w)) /\ cm_chat_id m = chatId).
Proof.
  split; [|split].
  - cbv zeta.
    assert (Hkeep_s : forall s r, In r (chat_sessions s) -> cs_id r <> chatId ->
              In r (chat_sessions (q_delete_session chatId s))).
    { intros s r Hin Hne. cbn. apply filter_In. split; [exact Hin|].
      apply N.eqb_neq in Hne. now rewrite Hne. }
    assert (Hkeep_m : forall s m, In m (chat_messages s) -> cm_chat_id m <> chatId ->
              In m (chat_messages (q_delete_messages chatId s))).
    { intros s m Hin Hne. cbn. apply filter_In. split; [exact Hin|].
      apply N.eqb_neq in Hne. now rewrite Hne. }
    assert (Hother : forall u, owns (db w) u chatId = false ->
              filter (session_of_user u) (chat_sessions (q_delete_session chatId (db w)))
              = filter (session_of_user u) (chat_sessions (db w)) /\
              filter (message_of_user (db w) u)
                     (chat_messages (q_delete_messages chatId (db w)))
              = filter (message_of_user (db w) u) (chat_messages (db w))).
    { intros u Ho. split;
        [now apply delete_session_keeps_others | now apply delete_messages_keeps_others]. }
    rewrite delete_chat_session_run. unfold effect_of, logged.
    destruct (store_fault env SiteDeleteMessages) eqn:Em;
      destruct (store_fault env SiteDeleteSession) eqn:Es;
      cbv zeta; cbn [snd db q_delete_session q_delete_messages
                     chat_sessions chat_messages].
    all: split; [first [now left | now right]|].
    all: split; [first [now left | now right]|].
    all: split; [first [solve [auto] | apply (Hkeep_s (db w))]|].
    all: split; [first [solve [auto] | apply (Hkeep_m (db w))]|].
    all: split;
      [ try (intros H; discriminate H); try (intros _ H; discriminate H)
      | intros u Ho; destruct (Hother u Ho) as [Hs Hm];
        cbn [q_delete_session q_delete_messages chat_sessions chat_messages] in Hs, Hm;
        split; first [reflexivity | assumption] ].
    intros _ _. split.
    + intro u. unfold owns. cbn [chat_sessions].
      destruct (existsb _ _) eqn:E; [|reflexivity].
      apply existsb_exists in E as (r & Hin & Hb).
      apply filter_In in Hin as [_ Hne]. apply andb_true_iff in Hb as [Hid _].
      rewrite Hid in Hne. discriminate Hne.
    + intros m Hin. apply filter_In in Hin as [_ Hne].
      apply negb_true_iff in Hne. now apply N.eqb_neq.
  - rewrite get_chat_messages_run. reflexivity.
  - intros code rows w'. rewrite get_chat_messages_run.
    destruct (store_fault env SiteListMessages); try discriminate.
    intros [= _ <- _] m. unfold q_messages_of.
    rewrite order_In, filter_In, N.eqb_eq. reflexivity.
Qed.

Lemma delete_and_read_are_keyed_by_session_witness :
  filter (session_of_user Sample.bob)
         (chat_sessions (db (snd (delete_chat_session Sample.quiet 1%N
                                    (start Sample.shared_store)))))
  = filter (session_of_user Sample.bob) (chat_sessions Sample.shared_store) /\
  (forall u,
     owns (db (snd (delete_chat_session Sample.quiet 1%N (start Sample.shared_store))))
          u 1%N = false).
Proof.
  destruct (proj1 (delete_and_read_are_keyed_by_session Sample.quiet 1%N
                     (start Sample.shared_store)))
    as (_ & _ & _ & _ & Hgone & Hother).
  split.
  - apply (proj1 (Hother Sample.bob eq_refl)).
  - apply (proj1 (Hgone eq_refl eq_refl)).
Defined.

(** C8 as stated fails: neither request is scoped to the owner.  [bob] has no
    session with id 1; it is [alice]'s, and it holds her message.  A client
    whose user id is "bob" deletes it: the server confirms, and afterwards
    [alice] has no session and her message is gone.  The same client, opening
    chat 1 on the untouched store, is shown her message. *)
Lemma any_caller_deletes_and_reads :
  Client.userId Client.outsider = Sample.bob /\
  owns Sample.shared_store Sample.bob 1%N = false /\
  owns Sample.shared_store Sample.alice 1%N = true /\
  message_of_user Sample.shared_store Sample.alice Sample.alice_note = true /\
  fst (delete_chat_session Sample.quiet 1%N (start Sample.shared_store))
  = Val delete_success /\
  (let after := db (snd (Client.deleteChatSession (Client.Up Sample.quiet)
                           (Client.Up Sample.quiet) 1%N Client.outsider
                           (start Sample.shared_store))) in
   filter (session_of_user Sample.alice) (chat_sessions after) = [] /\
   filter (fun m => N.eqb (cm_chat_id m) 1%N) (chat_messages after) = []) /\
  fst (get_chat_messages Sample.quiet 1%N (start Sample.shared_store))
  = Val (json (MessageList [Sample.alice_note])) /\
  Client.messages (fst (Client.switchToChat (Client.Up Sample.quiet) 1%N Client.outsider
                                            (start Sample.shared_store)))
  = [Client.mkEntry (lit "user") (lit "private") (Some 3%N)].
Proof. repeat split; vm_compute; reflexivity. Qed.


Lemma session_gone s c u :
  ~ In c (map cs_id (q_sessions_of_user u (q_delete_session c s))).
Proof.
  unfold q_sessions_of_user, q_delete_session. cbn [chat_sessions].
  intro H. apply in_map_iff in H as (r & Hid & Hin).
  apply order_In in Hin. apply filter_In in Hin as [Hin _].
  apply filter_In in Hin as [_ Hne].
  apply negb_true_iff in Hne. apply N.eqb_neq in Hne. contradiction.
Qed.




(* ------------------------------------------------------------------ *)
(** ** What a POST /chat request can be answered with *)

Lemma generation_result_any env p q :
  generation_result env p = generation_result env q.
Proof.
  unfold generation_result, generate, bind, emit, ret, throw.
  destruct (backend env) as [e|ok code st d]; simpl; [reflexivity|].
  destruct ok; simpl.
  - destruct (candidates d) as [[|c cs]|]; try reflexivity.
    destruct (match finishReason c with
              | Some reason => eqb reason (lit "SAFETY")
              | None => false
              end); reflexivity.
  - destruct (error_message d) as [m|]; [|reflexivity].
    destruct (includes m (lit "API key")); [reflexivity|].
    destruct (includes m (lit "quota")); reflexivity.
Qed.

(** The whole of a turn whose session is resolved, read at the handler. *)
Lemma post_chat_resolved env req w cs w1 :
  well_formed req ->
  resolve_session env (field (userId req)) (field (message req)) (chatId req) w
  = (Val (Some cs), w1) ->
  let msg := field (message req) in
  let s1 := with_user_turn env (cs_id cs) msg (db w1) in
  let p := turn_prompt env (cs_id cs) msg (db w1) in
  post_chat env req w =
  match generation_result env p with
  | Exn e =>
      (Val (internal_error e),
       mkWorld s1 (log w1 ++ [EvStore SiteSaveUser; EvStore SiteHistory; EvGenerate p]))
  | Val reply =>
      (Val (json (ChatReply reply (cs_id cs)
                            (0 <? length (turn_history env (cs_id cs) msg (db w1))))),
       mkWorld (effect_of env SiteTouch (q_touch_session (cs_id cs))
                          (with_bot_turn env (cs_id cs) reply s1))
               (log w1 ++ [EvStore SiteSaveUser; EvStore SiteHistory; EvGenerate p;
                           EvStore SiteSaveBot; EvStore SiteTouch]))
  end.
Proof.
  intros Hreq Hres. cbv zeta.
  rewrite (post_chat_run env w Hreq), Hres.
  unfold try_catch. rewrite run_turn_run. cbv zeta.
  unfold turn_prompt, turn_history.
  destruct (generation_result env _); reflexivity.
Qed.

(** POST /chat always answers, with status 200, 400 or 500.  It answers 400
    exactly when userId or message is missing or empty, and then it has made
    no external call and changed nothing; it answers 200 exactly when the
    body is a reply, and every other body is an error body. *)
Theorem post_chat_always_answers env req w :
  exists resp w',
    post_chat env req w = (Val resp, w') /\
    (status resp = 400%N <-> ~ well_formed req) /\
    (status resp = 400%N -> w' = w) /\
    (status resp = 200%N \/ status resp = 400%N \/ status resp = 500%N) /\
    (status resp = 200%N <->
       exists reply cid used, payload resp = ChatReply reply cid used) /\
    (status resp <> 200%N -> exists e d, payload resp = ErrorBody e d).
Proof.
  destruct (truthy_opt (userId req)) eqn:Hu;
    [destruct (truthy_opt (message req)) eqn:Hm|].
  - assert (Hreq : well_formed req) by (split; assumption).
    assert (Herr : forall e d w',
      exists resp w0,
        (Val (status_json 500 (ErrorBody e d)), w') = (Val resp, w0) /\
        (status resp = 400%N <-> ~ well_formed req) /\
        (status resp = 400%N -> w0 = w) /\
        (status resp = 200%N \/ status resp = 400%N \/ status resp = 500%N) /\
        (status resp = 200%N <->
           exists reply cid used, payload resp = ChatReply reply cid used) /\
        (status resp <> 200%N -> exists e0 d0, payload resp = ErrorBody e0 d0)).
    { intros e d w'. eexists _, _. split; [reflexivity|].
      cbn [status payload status_json].
      split; [split; [discriminate | intro H; elim (H Hreq)]|].
      split; [discriminate|].
      split; [right; right; reflexivity|].
      split; [split; [discriminate | intros (r & c & u & H); discriminate H]|].
      intros _. eauto. }
    rewrite (post_chat_run env w Hreq).
    destruct (resolve_session env _ _ _ w) as [[[cs|]|e] w1] eqn:Hres;
      [|apply Herr|apply Herr].
    unfold try_catch. rewrite run_turn_run. cbv zeta.
    destruct (generation_result env _) as [reply|e]; [|apply Herr].
    eexists _, _. split; [reflexivity|]. cbn [status payload json].
    split; [split; [discriminate | intro H; elim (H Hreq)]|].
    split; [discriminate|].
    split; [left; reflexivity|].
    split; [split; [intros _; eauto | reflexivity]|].
    intro H. now elim H.
  - rewrite post_chat_invalid by (now right).
    eexists _, _. split; [reflexivity|]. cbn [status payload status_json].
    split; [split; [intros _ [_ H]; congruence | reflexivity]|].
    split; [reflexivity|].
    split; [right; left; reflexivity|].
    split; [split; [discriminate | intros (r & c & u & H); discriminate H]|].
    intros _. eauto.
  - rewrite post_chat_invalid by (now left).
    eexists _, _. split; [reflexivity|]. cbn [status payload status_json].
    split; [split; [intros _ [H _]; congruence | reflexivity]|].
    split; [reflexivity|].
    split; [right; left; reflexivity|].
    split; [split; [discriminate | intros (r & c & u & H); discriminate H]|].
    intros _. eauto.
Qed.

(* ------------------------------------------------------------------ *)
(** ** The outcome of a turn *)

(** Whatever makes the generation step fail (the request rejects, a
    non-success status, no candidate, a safety stop), the handler answers 500
    "Internal server error" with the error text in [details].  The run ends at
    the generation call: the session table is as the resolution step left it,
    the message table holds at most the user's message more, and neither the
    assistant write nor the session touch is issued. *)
Theorem generation_failure_aborts env req w cs w1 e :
  well_formed req ->
  resolve_session env (field (userId req)) (field (message req)) (chatId req) w
  = (Val (Some cs), w1) ->
  generation_result env (turn_prompt env (cs_id cs) (field (message req)) (db w1))
  = Exn e ->
  exists w',
    post_chat env req w = (Val (internal_error e), w') /\
    log w' = log w1 ++ [EvStore SiteSaveUser; EvStore SiteHistory;
                        EvGenerate (turn_prompt env (cs_id cs) (field (message req))
                                                (db w1))] /\
    chat_sessions (db w') = chat_sessions (db w1) /\
    (chat_messages (db w') = chat_messages (db w1) \/
     chat_messages (db w') =
     chat_messages (db w1) ++
       [mkMessage (next_id (db w1)) (cs_id cs) (lit "user") (field (message req))
                  (clock (db w1))]).
Proof.
  intros Hreq Hres Hgen.
  rewrite (post_chat_resolved env w Hreq Hres). cbv zeta. rewrite Hgen.
  eexists. split; [reflexivity|]. cbn [db log].
  split; [reflexivity|].
  unfold with_user_turn, effect_of.
  destruct (store_fault env SiteSaveUser); cbn; auto.
Qed.

Lemma generation_failure_aborts_witness :
  exists w',
    post_chat Sample.filtered Sample.hello (start empty_store)
    = (Val (internal_error safety_message), w') /\
    log w' = log Sample.after_create ++
             [EvStore SiteSaveUser; EvStore SiteHistory;
              EvGenerate (turn_prompt Sample.filtered 1%N (lit "Hello")
                                      (db Sample.after_create))] /\
    chat_sessions (db w') = chat_sessions (db Sample.after_create) /\
    (chat_messages (db w') = chat_messages (db Sample.after_create) \/
     chat_messages (db w') =
     chat_messages (db Sample.after_create) ++
       [mkMessage 2%N 1%N (lit "user") (lit "Hello") 2%N]).
Proof.
  apply (@generation_failure_aborts Sample.filtered Sample.hello (start empty_store)
           Sample.first_session Sample.after_create safety_message).
  - split; reflexivity.
  - reflexivity.
  - reflexivity.
Defined.

(** Once the session is resolved, only the generation step decides whether
    the turn succeeds: if it yields a reply the handler answers 200 with that
    reply and the session's id, whichever of the user write, the history
    read, the assistant write and the session touch fail, and all five calls
    are issued in that order.  The flag is true exactly when the history read
    brought rows back. *)
Theorem store_failures_do_not_fail_a_turn env req w cs w1 reply :
  well_formed req ->
  resolve_session env (field (userId req)) (field (message req)) (chatId req) w
  = (Val (Some cs), w1) ->
  generation_result env (turn_prompt env (cs_id cs) (field (message req)) (db w1))
  = Val reply ->
  exists used w',
    post_chat env req w = (Val (json (ChatReply reply (cs_id cs) used)), w') /\
    (used = true <->
       turn_history env (cs_id cs) (field (message req)) (db w1) <> []) /\
    log w' = log w1 ++ [EvStore SiteSaveUser; EvStore SiteHistory;
                        EvGenerate (turn_prompt env (cs_id cs) (field (message req))
                                                (db w1));
                        EvStore SiteSaveBot; EvStore SiteTouch].
Proof.
  intros Hreq Hres Hgen.
  rewrite (post_chat_resolved env w Hreq Hres). cbv zeta. rewrite Hgen.
  eexists _, _. split; [reflexivity|]. split; [|reflexivity].
  destruct (turn_history env (cs_id cs) (field (message req)) (db w1));
    cbn; split; congruence.
Qed.

Lemma store_failures_do_not_fail_a_turn_witness :
  exists used w',
    post_chat Sample.no_history Sample.hello (start empty_store)
    = (Val (json (ChatReply (lit "Hi there") 1%N used)), w') /\
    (used = true <->
       turn_history Sample.no_history 1%N (lit "Hello") (db Sample.after_create) <> []) /\
    log w' = log Sample.after_create ++
             [EvStore SiteSaveUser; EvStore SiteHistory;
              EvGenerate (turn_prompt Sample.no_history 1%N (lit "Hello")
                                      (db Sample.after_create));
              EvStore SiteSaveBot; EvStore SiteTouch].
Proof.
  apply (@store_failures_do_not_fail_a_turn Sample.no_history Sample.hello
           (start empty_store) Sample.first_session Sample.after_create
           (lit "Hi there")).
  - split; reflexivity.
  - reflexivity.
  - reflexivity.
Defined.

(** A turn whose writes all go through and whose generation yields a reply
    appends exactly two messages to the session, the user's message and then
    the reply returned to the client, with consecutive timestamps, and stamps
    every row of the session with a later update time; nothing else in the
    tables changes. *)
Theorem completed_turn_is_recorded env req w cs w1 reply :
  well_formed req ->
  resolve_session env (field (userId req)) (field (message req)) (chatId req) w
  = (Val (Some cs), w1) ->
  generation_result env (turn_prompt env (cs_id cs) (field (message req)) (db w1))
  = Val reply ->
  store_fault env SiteSaveUser = NoFault ->
  store_fault env SiteSaveBot = NoFault ->
  store_fault env SiteTouch = NoFault ->
  let n := next_id (db w1) in
  let t := clock (db w1) in
  let s' := db (snd (post_chat env req w)) in
  chat_messages s' =
  chat_messages (db w1) ++
    [mkMessage n (cs_id cs) (lit "user") (field (message req)) t;
     mkMessage (N.succ n) (cs_id cs) (lit "bot") reply (N.succ t)] /\
  chat_sessions s' =
  map (fun r => if N.eqb (cs_id r) (cs_id cs)
                then mkSession (cs_id r) (cs_user_id r) (cs_title r) (cs_created_at r)
                               (N.succ (N.succ t))
                else r)
      (chat_sessions (db w1)) /\
  next_id s' = N.succ (N.succ n) /\
  clock s' = N.succ (N.succ (N.succ t)).
Proof.
  intros Hreq Hres Hgen Hu Hb Ht.
  rewrite (post_chat_resolved env w Hreq Hres). cbv zeta. rewrite Hgen.
  unfold with_bot_turn, with_user_turn, effect_of. rewrite Hu, Hb, Ht.
  cbn. rewrite <- app_assoc. repeat split; reflexivity.
Qed.

Lemma completed_turn_is_recorded_witness :
  chat_messages (db (snd (post_chat Sample.quiet Sample.hello (start empty_store))))
  = chat_messages (db Sample.after_create) ++
    [mkMessage 2%N 1%N (lit "user") (lit "Hello") 2%N;
     mkMessage 3%N 1%N (lit "bot") (lit "Hi there") 3%N].
Proof.
  apply (@completed_turn_is_recorded Sample.quiet Sample.hello (start empty_store)
           Sample.first_session Sample.after_create (lit "Hi there")); try reflexivity.
  split; reflexivity.
Defined.

(* ------------------------------------------------------------------ *)
(** ** What a turn does to the tables *)

Lemma single_some {A} (l : list A) (x : A) : single l = Some x -> l = [x].
Proof.
  destruct l as [|y [|z l]]; simpl; intro H; try discriminate. now injection H as ->.
Qed.

Lemma q_session_of_found c u s cs :
  q_session_of c u s = Some cs ->
  In cs (chat_sessions s) /\ cs_id cs = c /\ cs_user_id cs = u.
Proof.
  unfold q_session_of. intro H. apply single_some in H.
  assert (Hin : In cs (filter (fun r => N.eqb (cs_id r) c && eqb (cs_user_id r) u)
                              (chat_sessions s))) by (rewrite H; now left).
  apply filter_In in Hin as [Hin Hb]. apply andb_true_iff in Hb as [Hc Hu].
  apply N.eqb_eq in Hc. apply eqb_eq in Hu. auto.
Qed.

Lemma q_session_of_foreign c u s :
  owns s u c = false -> q_session_of c u s = None.
Proof.
  unfold owns, q_session_of, session_of_user. intro H.
  induction (chat_sessions s) as [|r l IH]; [reflexivity|].
  cbn [existsb] in H. apply orb_false_iff in H as [Hr Hl].
  cbn [filter]. rewrite Hr. now apply IH.
Qed.

(** The two ways a session is obtained: an existing row of the user, the
    tables unchanged, or one inserted row. *)
Lemma getOrCreate_tables env uid title w r w1 :
  getOrCreateChatSession env uid title w = (r, w1) ->
  (db w1 = db w /\
   forall cs, r = Val (Some cs) -> In cs (chat_sessions (db w)) /\ cs_user_id cs = uid)
  \/
  (exists t, db w1 = snd (q_insert_session uid t (db w)) /\
             r = Val (Some (fst (q_insert_session uid t (db w))))).
Proof.
  unfold getOrCreateChatSession.
  destruct (truthy_opt title); cbn [negb]; run_store.
  - destruct (store_fault env SiteCreate); cbn [error data fst snd db log];
      intro H; injection H as <- <-; cbn [db];
          [right; exists (or_else (field title) (lit "New Chat")); split; reflexivity
          | left | left];
      (split; [reflexivity | intros cs Hcs; discriminate Hcs]).
  - destruct (store_fault env SiteRecent); cbn [fst snd data error reading].
    + destruct (q_recent_session uid (db w)) as [|row rest] eqn:Hq.
      * rewrite store_call_run. unfold logged. cbn [db log].
        destruct (store_fault env SiteCreate); cbn [error data fst snd db log];
          intro H; injection H as <- <-; cbn [db];
          [right; exists (or_else (field title) (lit "New Chat")); split; reflexivity
          | left | left];
          (split; [reflexivity | intros cs Hcs; discriminate Hcs]).
      * intro H; injection H as <- <-. left. cbn [db]. split; [reflexivity|].
        intros cs [= <-].
        destruct (recent_session_is_latest _ _ Hq) as (Hin & Hu & _). auto.
    + intro H; injection H as <- <-. left. cbn [db].
      split; [reflexivity | intros cs Hcs; discriminate Hcs].
    + intro H; injection H as <- <-. left. cbn [db].
      split; [reflexivity | intros cs Hcs; discriminate Hcs].
Qed.

Lemma resolve_session_tables env uid msg cid w r w1 :
  resolve_session env uid msg cid w = (r, w1) ->
  (db w1 = db w /\
   forall cs, r = Val (Some cs) -> In cs (chat_sessions (db w)) /\ cs_user_id cs = uid)
  \/
  (exists t, db w1 = snd (q_insert_session uid t (db w)) /\
             r = Val (Some (fst (q_insert_session uid t (db w))))).
Proof.
  destruct cid as [c|].
  - unfold resolve_session. unfold bind at 1. unfold bind at 1.
    rewrite store_call_run.
    destruct (store_fault env SiteLookup); unfold ret, reading; cbn [fst snd data].
    + destruct (q_session_of c uid (db w)) as [cs|] eqn:Hq.
      * intro H; injection H as <- <-. left. cbn [db]. split; [reflexivity|].
        intros cs' [= <-]. destruct (q_session_of_found _ _ _ Hq) as (Hin & _ & Hu).
        auto.
      * intro H. apply getOrCreate_tables in H. exact H.
    + intro H. apply getOrCreate_tables in H. exact H.
    + intro H; injection H as <- <-. left. cbn [db].
      split; [reflexivity | intros cs Hcs; discriminate Hcs].
  - intro H. change (getOrCreateChatSession env uid (Some (derive_title msg)) w
                     = (r, w1)) in H.
    now apply getOrCreate_tables in H.
Qed.

Lemma effect_of_cases env st q s :
  effect_of env st q s = s \/ effect_of env st q s = q s.
Proof. unfold effect_of. destruct (store_fault env st); auto. Qed.

Lemma touch_keeps_identity c s :
  map session_identity (chat_sessions (q_touch_session c s))
  = map session_identity (chat_sessions s) /\
  chat_messages (q_touch_session c s) = chat_messages s.
Proof.
  split; [|reflexivity]. cbn [q_touch_session chat_sessions].
  rewrite map_map. apply map_ext. intro r.
  destruct (N.eqb (cs_id r) c); reflexivity.
Qed.

(** The tables after the part of a turn that follows the resolution. *)
Lemma turn_tables env c msg reply s s' :
  s' = with_user_turn env c msg s \/
  s' = effect_of env SiteTouch (q_touch_session c)
                 (with_bot_turn env c reply (with_user_turn env c msg s)) ->
  exists added,
    chat_messages s' = chat_messages s ++ added /\
    length added <= 2 /\
    Forall (fun m => cm_chat_id m = c) added /\
    map session_identity (chat_sessions s') = map session_identity (chat_sessions s).
Proof.
  unfold with_bot_turn, with_user_turn, effect_of.
  intros [-> | ->];
    destruct (store_fault env SiteSaveUser);
    try destruct (store_fault env SiteSaveBot);
    try destruct (store_fault env SiteTouch);
    cbn [q_insert_message snd chat_messages chat_sessions q_touch_session];
    rewrite <- ?app_assoc; cbn [app];
    try (rewrite map_map;
         rewrite (map_ext (fun r => session_identity
                     (if N.eqb (cs_id r) c
                      then mkSession (cs_id r) (cs_user_id r) (cs_title r)
                                     (cs_created_at r) _
                      else r)) session_identity)
           by (intro r; destruct (N.eqb (cs_id r) c); reflexivity)).
  all: first
    [ solve [exists []; rewrite app_nil_r;
             split; [reflexivity | split; [cbn; lia | split; [constructor | reflexivity]]]]
    | solve [eexists [_];
             split; [reflexivity | split; [cbn; lia | split; [repeat constructor | reflexivity]]]]
    | solve [eexists [_; _];
             split; [reflexivity | split; [cbn; lia | split; [repeat constructor | reflexivity]]]] ].
Qed.

(** The tables after any POST /chat: the resolution step leaves them alone or
    inserts one session, and the rest of the turn only adds messages of one
    session of the user and refreshes update times. *)
Lemma post_chat_tables env req w :
  exists s1 c added,
    (s1 = db w \/
     exists t, s1 = snd (q_insert_session (field (userId req)) t (db w))) /\
    chat_messages (db (snd (post_chat env req w))) = chat_messages s1 ++ added /\
    length added <= 2 /\
    Forall (fun m => cm_chat_id m = c) added /\
    map session_identity (chat_sessions (db (snd (post_chat env req w))))
    = map session_identity (chat_sessions s1) /\
    ((added = [] /\
      forall resp reply cid used,
        fst (post_chat env req w) = Val resp ->
        payload resp <> ChatReply reply cid used)
     \/
     ((forall resp reply cid used,
         fst (post_chat env req w) = Val resp ->
         payload resp = ChatReply reply cid used -> cid = c) /\
      exists cs, In cs (chat_sessions s1) /\ cs_id cs = c /\
                 Some (cs_user_id cs) = userId req)).
Proof.
  assert (Hidle : forall (resp : response) (w1 : world),
    (forall reply cid used, payload resp <> ChatReply reply cid used) ->
    (db w1 = db w \/
     exists t, db w1 = snd (q_insert_session (field (userId req)) t (db w))) ->
    post_chat env req w = (Val resp, w1) ->
    exists s1 c added,
      (s1 = db w \/
       exists t, s1 = snd (q_insert_session (field (userId req)) t (db w))) /\
      chat_messages (db (snd (post_chat env req w))) = chat_messages s1 ++ added /\
      length added <= 2 /\
      Forall (fun m => cm_chat_id m = c) added /\
      map session_identity (chat_sessions (db (snd (post_chat env req w))))
      = map session_identity (chat_sessions s1) /\
      ((added = [] /\
        forall resp0 reply cid used,
          fst (post_chat env req w) = Val resp0 ->
          payload resp0 <> ChatReply reply cid used)
       \/
       ((forall resp0 reply cid used,
           fst (post_chat env req w) = Val resp0 ->
           payload resp0 = ChatReply reply cid used -> cid = c) /\
        exists cs, In cs (chat_sessions s1) /\ cs_id cs = c /\
                   Some (cs_user_id cs) = userId req))).
  { intros resp w1 Hp Hs Hrun. exists (db w1), 0%N, []. rewrite Hrun. cbn [fst snd].
    rewrite app_nil_r. repeat split; auto.
    left. split; [reflexivity|]. intros resp0 reply cid used [= <-]. apply Hp. }
  destruct (truthy_opt (userId req)) eqn:Hu;
    [destruct (truthy_opt (message req)) eqn:Hm|].
  - assert (Hreq : well_formed req) by (split; assumption).
    pose proof (post_chat_run env w Hreq) as Hrun.
    destruct (resolve_session env _ _ _ w) as [r w1] eqn:Hres.
    assert (Hs : db w1 = db w \/
                 exists t, db w1 = snd (q_insert_session (field (userId req)) t (db w))).
    { destruct (resolve_session_tables _ _ _ _ _ Hres) as [[H _]|(t & H & _)]; eauto. }
    assert (Hcs : forall cs, r = Val (Some cs) ->
                    In cs (chat_sessions (db w1)) /\
                    Some (cs_user_id cs) = userId req).
    { intros cs Hr.
      assert (Hf : Some (field (userId req)) = userId req).
      { destruct (userId req); [reflexivity | discriminate Hu]. }
      destruct (resolve_session_tables _ _ _ _ _ Hres) as [[H Hin]|(t & H & Hr')].
      - destruct (Hin cs Hr) as [Hi Hc]. rewrite H, Hc. auto.
      - rewrite Hr' in Hr. injection Hr as <-. rewrite H.
        cbn [q_insert_session fst snd chat_sessions cs_user_id]. split; [|exact Hf].
        apply in_or_app. right. now left. }
    destruct r as [[cs|]|e].
    + destruct (Hcs cs eq_refl) as [Hin Hown].
      unfold try_catch in Hrun. rewrite run_turn_run in Hrun. cbv zeta in Hrun.
      destruct (generation_result env _) as [reply|e]; rewrite Hrun; cbn [fst snd db].
      * destruct (@turn_tables env (cs_id cs) (field (message req)) reply (db w1) _
                    (or_intror eq_refl)) as (added & Ha & Hl & Hf & Hi).
        exists (db w1), (cs_id cs), added. repeat split; auto.
        right. split; [|exists cs; auto].
        intros resp reply' cid used [= <-] [= _ <- _]. reflexivity.
      * destruct (@turn_tables env (cs_id cs) (field (message req)) [] (db w1) _
                    (or_introl eq_refl)) as (added & Ha & Hl & Hf & Hi).
        exists (db w1), (cs_id cs), added. repeat split; auto.
        right. split; [|exists cs; auto].
        intros resp reply' cid used [= <-] H. discriminate H.
    + apply (Hidle session_failure w1); [discriminate | exact Hs | exact Hrun].
    + apply (Hidle (internal_error e) w1); [discriminate | exact Hs | exact Hrun].
  - apply (Hidle (status_json 400 (ErrorBody (lit "userId and message are required")
                                            None)) w);
      [discriminate | now left |].
    now rewrite post_chat_invalid by (now right).
  - apply (Hidle (status_json 400 (ErrorBody (lit "userId and message are required")
                                            None)) w);
      [discriminate | now left |].
    now rewrite post_chat_invalid by (now left).
Qed.

(** POST /chat only ever adds to the tables.  Whatever the request and
    whatever fails, the messages stored before are still there, unchanged and
    in the same order, followed by at most two new ones, all of one session;
    the sessions stored before are still there with the same id, owner, title
    and creation time, followed by at most one new session. *)
Theorem post_chat_only_appends env req w :
  let s := db w in
  let s' := db (snd (post_chat env req w)) in
  exists new_sessions new_messages,
    map session_identity (chat_sessions s')
    = map session_identity (chat_sessions s ++ new_sessions) /\
    length new_sessions <= 1 /\
    chat_messages s' = chat_messages s ++ new_messages /\
    length new_messages <= 2 /\
    (forall m m', In m new_messages -> In m' new_messages ->
                  cm_chat_id m = cm_chat_id m').
Proof.
  cbv zeta.
  destruct (post_chat_tables env req w)
    as (s1 & c & added & Hs1 & Hm & Hl & Hf & Hi & _).
  assert (Hsame : forall m m', In m added -> In m' added -> cm_chat_id m = cm_chat_id m').
  { intros m m' Hin Hin'. rewrite Forall_forall in Hf.
    rewrite (Hf m Hin), (Hf m' Hin'). reflexivity. }
  destruct Hs1 as [-> | (t & ->)].
  - exists [], added. rewrite app_nil_r. repeat split; auto.
  - eexists [_], added. rewrite Hi, Hm.
    cbn [q_insert_session snd chat_sessions chat_messages].
    repeat split; auto.
Qed.

(* ------------------------------------------------------------------ *)
(** ** Requests that name a session *)

Lemma owns_spec s u c :
  owns s u c = true <->
  exists r, In r (chat_sessions s) /\ cs_id r = c /\ cs_user_id r = u.
Proof.
  unfold owns, session_of_user. rewrite existsb_exists. split.
  - intros (r & Hin & Hb). apply andb_true_iff in Hb as [Hc Hu].
    apply N.eqb_eq in Hc. apply eqb_eq in Hu. eauto.
  - intros (r & Hin & Hc & Hu). exists r. split; [exact Hin|].
    apply andb_true_iff. split; [now apply N.eqb_eq | now apply eqb_eq].
Qed.

Lemma not_a_session_of s u c t cs :
  owns s u c = false ->
  (c < next_id s)%N ->
  In cs (chat_sessions s) \/ In cs (chat_sessions (snd (q_insert_session u t s))) ->
  cs_user_id cs = u -> cs_id cs <> c.
Proof.
  intros Ho Hc Hin Hu Hid.
  assert (Hold : In cs (chat_sessions s) -> False).
  { intro H. assert (owns s u c = true) by (apply owns_spec; eauto). congruence. }
  destruct Hin as [Hin | Hin]; [auto|].
  cbn [q_insert_session snd chat_sessions] in Hin.
  apply in_app_or in Hin as [Hin | [<- | []]]; [auto|].
  cbn [cs_id] in Hid. lia.
Qed.

(** A user's request never lands in a session of somebody else.  If user [u]
    has no session with the already issued id [c], then whatever chatId the
    request of [u] carries and whatever fails, the messages stored under [c]
    are the same after POST /chat as before, and the answer never names [c]
    as the session of the turn. *)
Theorem foreign_session_is_left_alone env req w u c :
  userId req = Some u ->
  owns (db w) u c = false ->
  (c < next_id (db w))%N ->
  filter (fun m => N.eqb (cm_chat_id m) c)
         (chat_messages (db (snd (post_chat env req w))))
  = filter (fun m => N.eqb (cm_chat_id m) c) (chat_messages (db w)) /\
  (forall resp reply cid used,
     fst (post_chat env req w) = Val resp ->
     payload resp = ChatReply reply cid used -> cid <> c).
Proof.
  intros Hu Ho Hc.
  destruct (post_chat_tables env req w)
    as (s1 & c0 & added & Hs1 & Hm & _ & Hf & _ & Hrep).
  assert (Hs1m : chat_messages s1 = chat_messages (db w)).
  { destruct Hs1 as [-> | (t & ->)]; reflexivity. }
  assert (Hforeign : forall cs, In cs (chat_sessions s1) ->
                                Some (cs_user_id cs) = userId req -> cs_id cs <> c).
  { intros cs Hin Hown. rewrite Hu in Hown. injection Hown as Hown.
    rewrite Hu in Hs1. cbn [field] in Hs1.
    destruct Hs1 as [-> | (t & ->)].
    - apply (@not_a_session_of (db w) u c [] cs); auto.
    - apply (@not_a_session_of (db w) u c t cs); auto. }
  destruct Hrep as [[-> Hno] | [Hcid (cs & Hin & Hid & Hown)]].
  - split.
    + now rewrite Hm, Hs1m, app_nil_r.
    + intros resp reply cid used Hrun Hp. now elim (Hno resp reply cid used Hrun).
  - assert (Hne : c0 <> c) by (rewrite <- Hid; now apply Hforeign).
    split.
    + rewrite Hm, Hs1m, filter_app.
      replace (filter (fun m => N.eqb (cm_chat_id m) c) added) with (@nil ChatMessage);
        [now rewrite app_nil_r|].
      symmetry. clear Hm. induction Hf as [|m l Hm' _ IH]; [reflexivity|].
      cbn [filter]. rewrite Hm'. apply N.eqb_neq in Hne. now rewrite Hne.
    + intros resp reply cid used Hrun Hp.
      now rewrite (Hcid resp reply cid used Hrun Hp).
Qed.

Lemma foreign_session_is_left_alone_witness :
  filter (fun m => N.eqb (cm_chat_id m) 1%N)
         (chat_messages
            (db (snd (post_chat Sample.quiet
                        (mkRequest (Some Sample.bob) (Some (lit "let me in")) (Some 1%N))
                        (start Sample.shared_store)))))
  = filter (fun m => N.eqb (cm_chat_id m) 1%N) (chat_messages Sample.shared_store).
Proof.
  apply (proj1 (@foreign_session_is_left_alone Sample.quiet
                  (mkRequest (Some Sample.bob) (Some (lit "let me in")) (Some 1%N))
                  (start Sample.shared_store) Sample.bob 1%N
                  eq_refl eq_refl eq_refl)).
Defined.

(** A request that names a session of its user runs in that session.  When
    the lookup goes through and exactly one session has the given id and the
    given user, POST /chat creates no session (the session table keeps its
    rows, update times aside), every message it adds is stored under that id,
    and a reply names that id. *)
Theorem owned_session_is_reused env req w c cs :
  well_formed req ->
  chatId req = Some c ->
  store_fault env SiteLookup = NoFault ->
  q_session_of c (field (userId req)) (db w) = Some cs ->
  resolve_session env (field (userId req)) (field (message req)) (chatId req) w
  = (Val (Some cs), logged w (EvStore SiteLookup)) /\
  cs_id cs = c /\
  (let s' := db (snd (post_chat env req w)) in
   map session_identity (chat_sessions s') = map session_identity (chat_sessions (db w)) /\
   exists added,
     chat_messages s' = chat_messages (db w) ++ added /\
     Forall (fun m => cm_chat_id m = c) added) /\
  (forall resp reply cid used,
     fst (post_chat env req w) = Val resp ->
     payload resp = ChatReply reply cid used -> cid = c).
Proof.
  intros Hreq Hc Hf Hq.
  assert (Hres : resolve_session env (field (userId req)) (field (message req))
                                 (chatId req) w
                 = (Val (Some cs), logged w (EvStore SiteLookup))).
  { rewrite Hc. unfold resolve_session. unfold bind at 1. unfold bind at 1.
    rewrite store_call_run, Hf. unfold ret, reading. cbn [fst snd data].
    rewrite Hq. reflexivity. }
  destruct (q_session_of_found _ _ _ Hq) as (_ & Hid & _).
  split; [exact Hres|]. split; [exact Hid|].
  rewrite (post_chat_run env w Hreq), Hres.
  unfold try_catch. rewrite run_turn_run. cbv zeta. unfold logged. cbn [db log].
  rewrite Hid.
  destruct (generation_result env _) as [reply|e]; cbn [fst snd db].
  - destruct (@turn_tables env c (field (message req)) reply (db w) _
                (or_intror eq_refl)) as (added & Ha & _ & Hfa & Hi).
    split; [split; [exact Hi | eauto]|].
    intros resp reply' cid used [= <-] [= _ <- _]. reflexivity.
  - destruct (@turn_tables env c (field (message req)) [] (db w) _
                (or_introl eq_refl)) as (added & Ha & _ & Hfa & Hi).
    split; [split; [exact Hi | eauto]|].
    intros resp reply' cid used [= <-] H. discriminate H.
Qed.

Lemma owned_session_is_reused_witness :
  cs_id Sample.earlier_session = 1%N.
Proof.
  apply (proj1 (proj2 (@owned_session_is_reused Sample.quiet
                         (mkRequest (Some Sample.u1) (Some (lit "Hello again")) (Some 1%N))
                         (start Sample.returning_store) 1%N Sample.earlier_session
                         (conj eq_refl eq_refl) eq_refl eq_refl eq_refl))).
Defined.

(* ------------------------------------------------------------------ *)
(** ** The session list after a turn *)

Lemma settled_sessions s r :
  settled s = true -> In r (chat_sessions s) -> (cs_updated_at r < clock s)%N.
Proof.
  unfold settled. intros H Hin. apply andb_true_iff in H as [H _].
  rewrite forallb_forall in H. apply N.ltb_lt. now apply H.
Qed.

Lemma settled_messages s m :
  settled s = true -> In m (chat_messages s) -> (cm_created_at m < clock s)%N.
Proof.
  unfold settled. intros H Hin. apply andb_true_iff in H as [_ H].
  rewrite forallb_forall in H. apply N.ltb_lt. now apply H.
Qed.







(* ------------------------------------------------------------------ *)
(** ** The listing endpoints *)

Section OrderIsASort.
Variable A : Type.
Variable key : A -> N.
Variable asc : bool.

Let before (x y : A) : Prop := goes_before key asc x y = true.

Lemma before_total x y : before x y \/ before y x.
Proof.
  unfold before, goes_before. destruct asc.
  - destruct (N.leb_spec (key x) (key y)); [now left | right].
    apply N.leb_le. lia.
  - destruct (N.leb_spec (key y) (key x)); [now left | right].
    apply N.leb_le. lia.
Qed.

Lemma before_trans x y z : before x y -> before y z -> before x z.
Proof.
  unfold before, goes_before. destruct asc; rewrite !N.leb_le; lia.
Qed.

Lemma place_perm x l : Permutation (place key asc x l) (x :: l).
Proof.
  induction l as [|y l IH]; cbn [place]; [reflexivity|].
  destruct (goes_before key asc x y); [reflexivity|].
  rewrite perm_swap. now apply perm_skip.
Qed.

Lemma order_perm l : Permutation (order key asc l) l.
Proof.
  induction l as [|x l IH]; cbn [order]; [reflexivity|].
  rewrite place_perm. now apply perm_skip.
Qed.

Lemma place_sorted x l :
  StronglySorted before l -> StronglySorted before (place key asc x l).
Proof.
  induction 1 as [|y l Hs IH Hy]; cbn [place].
  - repeat constructor.
  - destruct (goes_before key asc x y) eqn:E.
    + constructor; [now constructor|].
      constructor; [exact E|].
      rewrite Forall_forall in *. intros z Hz.
      apply before_trans with y; [exact E | now apply Hy].
    + constructor; [exact IH|].
      rewrite Forall_forall in *. intros z Hz.
      apply place_In in Hz as [-> | Hz]; [|now apply Hy].
      destruct (before_total x y) as [H | H]; [unfold before in H; congruence | exact H].
Qed.

Lemma order_sorted l : StronglySorted before (order key asc l).
Proof.
  induction l as [|x l IH]; cbn [order]; [constructor | now apply place_sorted].
Qed.
End OrderIsASort.

Lemma order_ascending {A} (key : A -> N) (l : list A) :
  ascending_by key (order key true l).
Proof.
  unfold ascending_by.
  pose proof (order_sorted key true l) as H. cbv zeta in H.
  induction H as [|x l' Hs IH Hx]; constructor; [exact IH|].
  eapply Forall_impl; [|exact Hx].
  intros y Hy. unfold goes_before in Hy. now apply N.leb_le.
Qed.

Lemma order_descending {A} (key : A -> N) (l : list A) :
  descending_by key (order key false l).
Proof.
  unfold descending_by.
  pose proof (order_sorted key false l) as H. cbv zeta in H.
  induction H as [|x l' Hs IH Hx]; constructor; [exact IH|].
  eapply Forall_impl; [|exact Hx].
  intros y Hy. unfold goes_before in Hy. now apply N.leb_le.
Qed.

(** GET /chat-messages/:chatId never changes the tables.  When the read goes
    through it answers 200 with exactly the stored messages of that session,
    each once, in non-decreasing order of creation time; when the read
    returns an error or rejects it answers 500 "Failed to fetch chat
    messages". *)
Theorem messages_are_listed_in_order env chatId w :
  db (snd (get_chat_messages env chatId w)) = db w /\
  (store_fault env SiteListMessages = NoFault ->
   exists rows,
     fst (get_chat_messages env chatId w) = Val (json (MessageList rows)) /\
     Permutation rows
       (filter (fun m => N.eqb (cm_chat_id m) chatId) (chat_messages (db w))) /\
     ascending_by cm_created_at rows) /\
  (store_fault env SiteListMessages <> NoFault ->
   fst (get_chat_messages env chatId w)
   = Val (status_json 500 (ErrorBody (lit "Failed to fetch chat messages") None))).
Proof.
  rewrite get_chat_messages_run. cbn [fst snd logged db].
  split; [reflexivity|]. split.
  - intros ->. exists (q_messages_of chatId (db w)). split; [reflexivity|].
    unfold q_messages_of. split; [apply order_perm | apply order_ascending].
  - intro H. destruct (store_fault env SiteListMessages); [contradiction | |];
      reflexivity.
Qed.

Lemma messages_are_listed_in_order_witness :
  exists rows,
    fst (get_chat_messages Sample.quiet 7%N (start Sample.crowded_store))
    = Val (json (MessageList rows)) /\
    Permutation rows
      (filter (fun m => N.eqb (cm_chat_id m) 7%N) (chat_messages Sample.crowded_store)) /\
    ascending_by cm_created_at rows.
Proof.
  apply (proj1 (proj2 (messages_are_listed_in_order Sample.quiet 7%N
                         (start Sample.crowded_store)))).
  reflexivity.
Defined.

(** GET /chat-sessions/:userId never changes the tables.  When the read goes
    through it answers 200 with exactly the sessions of that user, each once,
    most recently updated first; when the read returns an error or rejects it
    answers 500 "Failed to fetch chat sessions". *)
Theorem sessions_are_listed_latest_first env uid w :
  db (snd (get_chat_sessions env uid w)) = db w /\
  (store_fault env SiteListSessions = NoFault ->
   exists rows,
     fst (get_chat_sessions env uid w) = Val (json (SessionList rows)) /\
     Permutation rows (filter (session_of_user uid) (chat_sessions (db w))) /\
     descending_by cs_updated_at rows /\
     (forall r, In r rows -> cs_user_id r = uid)) /\
  (store_fault env SiteListSessions <> NoFault ->
   fst (get_chat_sessions env uid w)
   = Val (status_json 500 (ErrorBody (lit "Failed to fetch chat sessions") None))).
Proof.
  rewrite get_chat_sessions_run. cbn [fst snd logged db].
  split; [reflexivity|]. split.
  - intros ->. exists (q_sessions_of_user uid (db w)). split; [reflexivity|].
    unfold q_sessions_of_user.
    split; [apply order_perm|]. split; [apply order_descending|].
    intros r Hr. apply order_In in Hr. apply filter_In in Hr as [_ Hr].
    now apply eqb_eq.
  - intro H. destruct (store_fault env SiteListSessions); [contradiction | |];
      reflexivity.
Qed.

Lemma sessions_are_listed_latest_first_witness :
  exists rows,
    fst (get_chat_sessions Sample.quiet Sample.bob (start Sample.shared_store))
    = Val (json (SessionList rows)) /\
    Permutation rows
      (filter (session_of_user Sample.bob) (chat_sessions Sample.shared_store)) /\
    descending_by cs_updated_at rows /\
    (forall r, In r rows -> cs_user_id r = Sample.bob).
Proof.
  apply (proj1 (proj2 (sessions_are_listed_latest_first Sample.quiet Sample.bob
                         (start Sample.shared_store)))).
  reflexivity.
Defined.

(* ------------------------------------------------------------------ *)
(** ** Writing a message and reading it back *)

Lemma place_after_all {A} (key : A -> N) (x last : A) (l : list A) :
  (key x <= key last)%N ->
  place key true x (l ++ [last]) = place key true x l ++ [last].
Proof.
  intro Hx. induction l as [|y l IH]; cbn [place app].
  - unfold goes_before. apply N.leb_le in Hx. now rewrite Hx.
  - destruct (goes_before key true x y); [reflexivity|].
    now rewrite IH.
Qed.

Lemma order_newest_last {A} (key : A -> N) (l : list A) (last : A) :
  (forall x, In x l -> (key x <= key last)%N) ->
  order key true (l ++ [last]) = order key true l ++ [last].
Proof.
  induction l as [|x l IH]; intro H; [reflexivity|].
  cbn [order app]. rewrite IH by (intros y Hy; apply H; now right).
  apply place_after_all. apply H. now left.
Qed.

Lemma insert_message_settled c r t s :
  settled s = true -> settled (snd (q_insert_message c r t s)) = true.
Proof.
  intro H. pose proof (settled_sessions s) as Hs. pose proof (settled_messages s) as Hm.
  unfold settled. cbn [q_insert_message snd chat_sessions chat_messages clock].
  apply andb_true_iff. split; apply forallb_forall.
  - intros x Hx. apply N.ltb_lt. specialize (Hs x H Hx). lia.
  - intros x Hx. apply N.ltb_lt. apply in_app_or in Hx as [Hx | [<- | []]].
    + specialize (Hm x H Hx). lia.
    + cbn [cm_created_at]. lia.
Qed.

(** saveMessage and GET /chat-messages compose.  In a store whose timestamps
    lie before its clock, a saveMessage that goes through returns the stored
    row, which carries the given session, role and content; afterwards the
    listing of that session is the former listing followed by the new row,
    the listing of every other session is what it was, and the timestamps
    still lie before the clock. *)
Theorem saved_message_is_listed_last env st chatId r c w :
  settled (db w) = true ->
  store_fault env st = NoFault ->
  exists row w1,
    saveMessage env st chatId r c w = (Val (Some row), w1) /\
    cm_chat_id row = chatId /\ cm_role row = r /\ cm_content row = c /\
    settled (db w1) = true /\
    (forall env2 c',
       store_fault env2 SiteListMessages = NoFault ->
       fst (get_chat_messages env2 c' w1) =
       Val (json (MessageList
                    (if N.eqb c' chatId
                     then q_messages_of chatId (db w) ++ [row]
                     else q_messages_of c' (db w))))).
Proof.
  intros Hset Hf.
  exists (fst (q_insert_message chatId r c (db w))),
         (mkWorld (snd (q_insert_message chatId r c (db w))) (log w ++ [EvStore st])).
  split.
  { unfold saveMessage. run_store. rewrite Hf. reflexivity. }
  split; [reflexivity|]. split; [reflexivity|]. split; [reflexivity|].
  split; [now apply insert_message_settled|].
  intros env2 c' H2. rewrite get_chat_messages_run, H2. cbn [fst db].
  do 3 f_equal. unfold q_messages_of.
  cbn [q_insert_message snd chat_messages]. rewrite filter_app. cbn [filter cm_chat_id].
  rewrite (N.eqb_sym chatId c').
  destruct (N.eqb c' chatId) eqn:E.
  - apply N.eqb_eq in E. subst c'.
    apply order_newest_last. intros x Hx. apply filter_In in Hx as [Hx _].
    pose proof (settled_messages _ _ Hset Hx). cbn [cm_created_at fst q_insert_message].
    lia.
  - now rewrite app_nil_r.
Qed.

Lemma saved_message_is_listed_last_witness :
  exists row w1,
    saveMessage Sample.quiet SiteSaveUser 1%N (lit "user") (lit "again")
                (start Sample.shared_store) = (Val (Some row), w1) /\
    cm_chat_id row = 1%N /\ cm_role row = lit "user" /\ cm_content row = lit "again" /\
    settled (db w1) = true /\
    (forall env2 c',
       store_fault env2 SiteListMessages = NoFault ->
       fst (get_chat_messages env2 c' w1) =
       Val (json (MessageList
                    (if N.eqb c' 1%N
                     then q_messages_of 1%N (db (start Sample.shared_store)) ++ [row]
                     else q_messages_of c' (db (start Sample.shared_store)))))).
Proof.
  apply (@saved_message_is_listed_last Sample.quiet SiteSaveUser 1%N (lit "user")
           (lit "again") (start Sample.shared_store)); reflexivity.
Defined.

(* ------------------------------------------------------------------ *)
(** ** The helpers swallow every store failure *)



(* ------------------------------------------------------------------ *)
(** ** Deleting twice, deleting what is not there *)

Lemma filter_all {A} (f : A -> bool) (l : list A) :
  (forall x, In x l -> f x = true) -> filter f l = l.
Proof.
  induction l as [|x l IH]; intro H; [reflexivity|].
  cbn [filter]. rewrite (H x (or_introl eq_refl)). f_equal.
  apply IH. intros y Hy. apply H. now right.
Qed.

Lemma filter_twice {A} (f : A -> bool) (l : list A) :
  filter f (filter f l) = filter f l.
Proof.
  apply filter_all. intros x Hx. now apply filter_In in Hx as [_ Hx].
Qed.

(** When both deletions go through, DELETE /chat-sessions/:chatId is
    confirmed and leaves no session row and no message with that id, whether
    or not the session existed.  If nothing was stored under the id the
    tables are unchanged, and deleting the same id once more is confirmed
    again and changes nothing. *)
Theorem delete_is_idempotent env chatId w :
  store_fault env SiteDeleteMessages = NoFault ->
  store_fault env SiteDeleteSession = NoFault ->
  let once := delete_chat_session env chatId w in
  let twice := delete_chat_session env chatId (snd once) in
  fst once = Val delete_success /\
  (forall r, In r (chat_sessions (db (snd once))) -> cs_id r <> chatId) /\
  (forall m, In m (chat_messages (db (snd once))) -> cm_chat_id m <> chatId) /\
  ((forall r, In r (chat_sessions (db w)) -> cs_id r <> chatId) ->
   (forall m, In m (chat_messages (db w)) -> cm_chat_id m <> chatId) ->
   db (snd once) = db w) /\
  fst twice = Val delete_success /\
  db (snd twice) = db (snd once).
Proof.
  intros Hm Hs. cbv zeta. rewrite !delete_chat_session_run.
  unfold effect_of. rewrite Hm, Hs. cbv zeta. cbn [fst snd db].
  split; [reflexivity|].
  split.
  { intros r Hr. cbn in Hr. apply filter_In in Hr as [_ Hr].
    apply negb_true_iff in Hr. now apply N.eqb_neq. }
  split.
  { intros m Hin. cbn in Hin. apply filter_In in Hin as [_ Hin].
    apply negb_true_iff in Hin. now apply N.eqb_neq. }
  split.
  { intros Hr Hmm. destruct (db w) as [ss ms n t]. cbn in *.
    unfold q_delete_session, q_delete_messages. cbn.
    rewrite !filter_all; [reflexivity | |].
    - intros m Hin. apply negb_true_iff. apply N.eqb_neq. now apply Hmm.
    - intros r Hin. apply negb_true_iff. apply N.eqb_neq. now apply Hr. }
  split; [reflexivity|].
  unfold q_delete_session, q_delete_messages. cbn.
  now rewrite !filter_twice.
Qed.

Lemma delete_is_idempotent_witness :
  db (snd (delete_chat_session Sample.quiet 9%N (start Sample.shared_store)))
  = Sample.shared_store.
Proof.
  destruct (@delete_is_idempotent Sample.quiet 9%N (start Sample.shared_store)
              eq_refl eq_refl) as (_ & _ & _ & Hsame & _).
  apply Hsame.
  - intros r Hr. cbn in Hr. destruct Hr as [<- | [<- | []]]; discriminate.
  - intros m Hm. cbn in Hm. destruct Hm as [<- | [<- | []]]; discriminate.
Defined.

(* ------------------------------------------------------------------ *)
(** ** The window of the context builder *)

Lemma slice_last_app {A} (n : nat) (older recent : list A) :
  n <= length recent -> slice_last n (older ++ recent) = slice_last n recent.
Proof.
  intro H. unfold slice_last. rewrite length_app, skipn_app.
  replace (length older + length recent - n - length older) with (length recent - n)
    by lia.
  rewrite skipn_all2 by lia. reflexivity.
Qed.

Lemma slice_last_short {A} (n : nat) (l : list A) :
  length l <= n -> slice_last n l = l.
Proof.
  intro H. unfold slice_last. replace (length l - n) with 0 by lia. reflexivity.
Qed.

(** Entries older than the last ten have no influence on the prompt: a
    history of at least ten entries gives the same prompt whatever precedes
    it.  A history of at most ten entries is rendered in full. *)
Theorem only_the_last_ten_matter (currentMessage : jsstring)
        (older recent : list HistoryRow) :
  (10 <= length recent ->
   buildContextPrompt currentMessage (older ++ recent)
   = buildContextPrompt currentMessage recent) /\
  (recent <> [] -> length recent <= 10 ->
   buildContextPrompt currentMessage recent
   = preamble +++ history_header +++ concat (map rendered recent)
              +++ context_instruction +++ currentMessage).
Proof.
  split.
  - intro H.
    assert (Hr : recent <> []) by (destruct recent; [simpl in H; lia | discriminate]).
    assert (Ho : older ++ recent <> []).
    { intro E. apply app_eq_nil in E as [_ E]. contradiction. }
    rewrite (buildContextPrompt_history currentMessage Ho),
            (buildContextPrompt_history currentMessage Hr).
    now rewrite slice_last_app.
  - intros Hr Hl. rewrite (buildContextPrompt_history currentMessage Hr).
    now rewrite slice_last_short.
Qed.

Lemma only_the_last_ten_matter_witness :
  buildContextPrompt (lit "Q") (firstn 1 (map project Sample.eleven)
                                ++ skipn 1 (map project Sample.eleven))
  = buildContextPrompt (lit "Q") (skipn 1 (map project Sample.eleven)).
Proof.
  apply (proj1 (only_the_last_ten_matter (lit "Q")
                  (firstn 1 (map project Sample.eleven))
                  (skipn 1 (map project Sample.eleven)))).
  vm_compute. lia.
Defined.

(** In a turn the builder's window never cuts anything: the history handed to
    it was fetched with limit 10, so the prompt the turn sends to the backend
    renders every fetched row, in the order fetched; with nothing fetched it
    is the generic prompt. *)
Theorem turn_prompt_renders_whole_fetch env msg cs w :
  let h := turn_history env (cs_id cs) msg (db w) in
  let p := turn_prompt env (cs_id cs) msg (db w) in
  In (EvGenerate p) (log (snd (run_turn env msg cs w))) /\
  length h <= 10 /\
  (h = [] -> p = preamble +++ generic_instruction +++ msg) /\
  (h <> [] ->
   p = preamble +++ history_header +++ concat (map rendered h)
                +++ context_instruction +++ msg).
Proof.
  cbv zeta.
  assert (Hl : length (turn_history env (cs_id cs) msg (db w)) <= 10).
  { unfold turn_history, fetched_history.
    destruct (store_fault env SiteHistory); cbn [length]; try lia.
    unfold q_history, limit. rewrite length_map, length_firstn. lia. }
  split.
  { rewrite run_turn_run. cbv zeta. fold (turn_history env (cs_id cs) msg (db w)).
    fold (turn_prompt env (cs_id cs) msg (db w)).
    destruct (generation_result env _); cbn [snd log];
      apply in_or_app; right; cbn; tauto. }
  split; [exact Hl|]. unfold turn_prompt. split.
  - intros ->. apply buildContextPrompt_empty.
  - intro Hne. rewrite (buildContextPrompt_history msg Hne).
    now rewrite slice_last_short.
Qed.

Lemma turn_prompt_renders_whole_fetch_witness :
  turn_prompt Sample.no_history 1%N (lit "Hello") (db Sample.after_create)
  = preamble +++ generic_instruction +++ lit "Hello".
Proof.
  apply (proj1 (proj2 (proj2 (turn_prompt_renders_whole_fetch Sample.no_history
                                (lit "Hello") Sample.first_session
                                Sample.after_create)))).
  reflexivity.
Defined.

(* ------------------------------------------------------------------ *)
(** ** Errors of the generation backend *)

Lemma starts_with_spec (p s : jsstring) :
  starts_with p s = true <-> begins_with s p.
Proof.
  unfold begins_with. revert s; induction p as [|x p IH]; intros s; cbn [starts_with].
  - split; [intros _; now exists s | reflexivity].
  - destruct s as [|y s].
    + split; [discriminate | intros [rest H]; discriminate H].
    + rewrite andb_true_iff, N.eqb_eq, IH. split.
      * intros [-> [rest ->]]. now exists rest.
      * intros [rest [= -> ->]]. split; [reflexivity | now exists rest].
Qed.

Lemma includes_spec (s needle : jsstring) :
  includes s needle = true <-> contains s needle.
Proof.
  unfold contains. induction s as [|c s IH]; cbn [includes].
  - rewrite orb_false_r, starts_with_spec. unfold begins_with. split.
    + intros [rest H]. exists [], rest. exact H.
    + intros (front & rest & H). symmetry in H.
      apply app_eq_nil in H as [-> H]. apply app_eq_nil in H as [-> ->].
      now exists [].
  - rewrite orb_true_iff, starts_with_spec, IH. unfold begins_with. split.
    + intros [[rest H] | (front & rest & H)].
      * exists [], rest. exact H.
      * exists (c :: front), rest. now rewrite H.
    + intros ([|c' front] & rest & H).
      * left. now exists rest.
      * right. injection H as -> H. now exists front, rest.
Qed.

Lemma includes_false (s needle : jsstring) :
  includes s needle = false <-> ~ contains s needle.
Proof.
  rewrite <- includes_spec. destruct (includes s needle); split; congruence.
Qed.

(** How a non-success answer of the backend is reported.  The generation step
    fails, after the request has been logged.  With an error object: if its
    message contains "API key" the error is the invalid-key text, even when
    the message also contains "quota"; otherwise if it contains "quota" the
    error is the quota text; otherwise the error is the message itself, or
    "Gemini API error" when the message is empty.  Without an error object the
    error is "HTTP <status>: <statusText>". *)
Theorem backend_error_mapping env p w code statusText err cands :
  backend env = FetchResponse false code statusText (mkData err cands) ->
  exists e,
    generate env p w = (Exn e, logged w (EvGenerate p)) /\
    match err with
    | None => e = lit "HTTP " +++ of_number code +++ lit ": " +++ statusText
    | Some m =>
        (contains m (lit "API key") ->
         e = lit "Invalid or expired API key. Please check your Gemini API key.") /\
        (~ contains m (lit "API key") -> contains m (lit "quota") ->
         e = lit "API quota exceeded. Please check your Gemini API usage.") /\
        (~ contains m (lit "API key") -> ~ contains m (lit "quota") ->
         (m <> [] -> e = m) /\ (m = [] -> e = lit "Gemini API error"))
    end.
Proof.
  intro Hb. rewrite generate_run.
  unfold generation_result, generate, bind, emit. rewrite Hb. cbn [negb error_message].
  destruct err as [m|]; [|eexists; split; reflexivity].
  destruct (includes m (lit "API key")) eqn:Ek.
  - eexists. split; [reflexivity|]. apply includes_spec in Ek.
    split; [reflexivity|]. split; intro H; now elim H.
  - apply includes_false in Ek. destruct (includes m (lit "quota")) eqn:Eq.
    + eexists. split; [reflexivity|]. apply includes_spec in Eq.
      split; [intro H; now elim Ek|]. split; [reflexivity|].
      intros _ H. now elim H.
    + apply includes_false in Eq. eexists. split; [reflexivity|].
      split; [intro H; now elim Ek|]. split; [intros _ H; now elim Eq|].
      intros _ _. unfold or_else. destruct m; cbn; split; congruence.
Qed.

Lemma backend_error_mapping_witness :
  exists e,
    generate
      (mkEnv calm (FetchResponse false 429 (lit "Too Many Requests")
                     (mkData (Some (lit "quota exceeded for this API key")) None)))
      (lit "prompt") (start empty_store)
    = (Exn e, logged (start empty_store) (EvGenerate (lit "prompt"))) /\
    e = lit "Invalid or expired API key. Please check your Gemini API key.".
Proof.
  destruct (@backend_error_mapping
              (mkEnv calm (FetchResponse false 429 (lit "Too Many Requests")
                             (mkData (Some (lit "quota exceeded for this API key")) None)))
              (lit "prompt") (start empty_store) 429%N (lit "Too Many Requests")
              (Some (lit "quota exceeded for this API key")) None eq_refl)
    as (e & Hrun & Hkey & _).
  exists e. split; [exact Hrun|]. apply Hkey.
  apply includes_spec. vm_compute. reflexivity.
Defined.

(** The start-up self test and a chat turn judge the same answer differently.
    Every answer a turn accepts passes the self test.  An answer that passes
    the self test can still fail a turn, but only for want of a candidate or
    by a safety stop; an answer that fails the self test fails every turn. *)
Theorem self_test_versus_turn env p w :
  (forall reply, fst (generate env p w) = Val reply ->
                 testGeminiAPI (backend env) = true) /\
  (testGeminiAPI (backend env) = true ->
   (exists reply, fst (generate env p w) = Val reply) \/
   (candidates_of_ok (backend env) = Some [] /\
    fst (generate env p w) = Exn (lit "No response generated by Gemini API")) \/
   fst (generate env p w) = Exn safety_message) /\
  (testGeminiAPI (backend env) = false ->
   exists e, fst (generate env p w) = Exn e).
Proof.
  rewrite generate_run. cbn [fst].
  unfold generation_result, generate, bind, emit, ret, throw, testGeminiAPI,
    candidates_of_ok.
  destruct (backend env) as [e|ok code st d]; cbn [fst].
  - split; [discriminate|]. split; [discriminate|]. eauto.
  - destruct ok; cbn [negb andb].
    + destruct (candidates d) as [[|c cs]|]; cbn [fst].
      * split; [discriminate|]. split; [auto|]. eauto.
      * destruct (match finishReason c with
                  | Some reason => eqb reason (lit "SAFETY")
                  | None => false
                  end); cbn [fst].
        -- split; [discriminate|]. split; [auto|]. eauto.
        -- split; [reflexivity|]. split; [eauto|]. discriminate.
      * split; [discriminate|]. split; [discriminate|]. eauto.
    + destruct (error_message d) as [m|]; cbn [fst].
      * destruct (includes m (lit "API key")); cbn [fst];
          [|destruct (includes m (lit "quota")); cbn [fst]];
          (split; [discriminate|]; split; [discriminate|]; eauto).
      * split; [discriminate|]. split; [discriminate|]. eauto.
Qed.

Lemma self_test_versus_turn_witness :
  testGeminiAPI (backend Sample.quiet) = true.
Proof.
  apply (proj1 (self_test_versus_turn Sample.quiet (lit "prompt") (start empty_store))
               (lit "Hi there")).
  reflexivity.
Defined.

(* ------------------------------------------------------------------ *)
(** ** getOrCreateChatSession without a title *)

Lemma no_session_no_recent u s :
  owns_any s u = false -> q_recent_session u s = [].
Proof.
  unfold owns_any, q_recent_session, q_sessions_of_user, session_of_user. intro H.
  replace (filter (fun r => eqb (cs_user_id r) u) (chat_sessions s))
    with (@nil ChatSession); [reflexivity|].
  induction (chat_sessions s) as [|r l IH]; [reflexivity|].
  cbn [existsb] in H. apply orb_false_iff in H as [Hr Hl].
  cbn [filter]. rewrite Hr. now apply IH.
Qed.

(** Called without a title (none, or the empty string), for a user who has no
    session, getOrCreateChatSession looks for a recent session, finds none
    and inserts a session titled "New Chat" for that user, which it returns.
    If the lookup returns an error it returns null without trying to insert. *)
Theorem untitled_session_is_new_chat env u title w :
  truthy_opt title = false ->
  (store_fault env SiteRecent = NoFault ->
   store_fault env SiteCreate = NoFault ->
   owns_any (db w) u = false ->
   let fresh := mkSession (next_id (db w)) u (lit "New Chat")
                          (clock (db w)) (clock (db w)) in
   getOrCreateChatSession env u title w
   = (Val (Some fresh),
      mkWorld (mkStore (chat_sessions (db w) ++ [fresh]) (chat_messages (db w))
                       (N.succ (next_id (db w))) (N.succ (clock (db w))))
              (log w ++ [EvStore SiteRecent; EvStore SiteCreate]))) /\
  (store_fault env SiteRecent <> NoFault ->
   getOrCreateChatSession env u title w = (Val None, logged w (EvStore SiteRecent))).
Proof.
  intro Ht. unfold getOrCreateChatSession. rewrite Ht. cbn [negb]. split.
  - intros Hr Hc Ho. cbv zeta. run_store. rewrite Hr.
    cbn [fst snd data error reading]. rewrite (no_session_no_recent _ _ Ho).
    rewrite store_call_run, Hc. unfold logged. cbn [fst snd data error db log].
    assert (Htitle : or_else (field title) (lit "New Chat") = lit "New Chat").
    { destruct title as [[|c t]|]; [reflexivity | discriminate Ht | reflexivity]. }
    rewrite Htitle, <- app_assoc. reflexivity.
  - intro Hr. run_store.
    destruct (store_fault env SiteRecent); [now elim Hr | |]; reflexivity.
Qed.

Lemma untitled_session_is_new_chat_witness :
  getOrCreateChatSession Sample.quiet Sample.u1 (Some []) (start empty_store)
  = (Val (Some (mkSession 1%N Sample.u1 (lit "New Chat") 1%N 1%N)),
     mkWorld (mkStore ([] ++ [mkSession 1%N Sample.u1 (lit "New Chat") 1%N 1%N]) []
                      2%N 2%N)
             ([] ++ [EvStore SiteRecent; EvStore SiteCreate])).
Proof.
  apply (proj1 (@untitled_session_is_new_chat Sample.quiet Sample.u1 (Some [])
                  (start empty_store) eq_refl)); reflexivity.
Defined.

(* ------------------------------------------------------------------ *)
(** ** A follow-up in the session of the first reply *)

Lemma order_of_ascending {A} (key : A -> N) (l : list A) :
  ascending_by key l -> order key true l = l.
Proof.
  unfold ascending_by. induction 1 as [|x l Hs IH Hx]; [reflexivity|].
  cbn [order]. rewrite IH. destruct l as [|y l]; [reflexivity|].
  cbn [place]. unfold goes_before.
  apply Forall_inv in Hx. apply N.leb_le in Hx. now rewrite Hx.
Qed.

Lemma filter_old_new {A} (f : A -> bool) (old new : list A) :
  (forall x, In x old -> f x = false) ->
  (forall x, In x new -> f x = true) ->
  filter f (old ++ new) = new.
Proof.
  intros Ho Hn. rewrite filter_app.
  replace (filter f old) with (@nil A).
  - now apply filter_all.
  - symmetry. induction old as [|x old IH]; [reflexivity|].
    cbn [filter]. rewrite (Ho x (or_introl eq_refl)).
    apply IH. intros y Hy. apply Ho. now right.
Qed.

Lemma ids_issued_sessions s r :
  ids_issued s = true -> In r (chat_sessions s) -> (cs_id r < next_id s)%N.
Proof.
  unfold ids_issued. intros H Hin. apply andb_true_iff in H as [H _].
  rewrite forallb_forall in H. apply N.ltb_lt. now apply H.
Qed.

Lemma ids_issued_messages s m :
  ids_issued s = true -> In m (chat_messages s) -> (cm_chat_id m < next_id s)%N.
Proof.
  unfold ids_issued. intros H Hin. apply andb_true_iff in H as [_ H].
  rewrite forallb_forall in H. apply N.ltb_lt. now apply H.
Qed.

(** The end-to-end scenario, with every store call going through.  A first
    POST /chat without chatId, in a store whose identifiers were all issued
    earlier, creates session [n] and answers with it; a second POST /chat of
    the same user that carries chatId [n] is answered in session [n] as well,
    creates no further session, and the history it builds its prompt from is
    the first message, the first reply and the second message, in that
    order.  Both answers carry contextUsed = true. *)
Theorem follow_up_continues_the_session env1 env2 u msg1 msg2 reply1 reply2 w :
  (forall st, store_fault env1 st = NoFault) ->
  (forall st, store_fault env2 st = NoFault) ->
  generation_result env1 [] = Val reply1 ->
  generation_result env2 [] = Val reply2 ->
  truthy u = true -> truthy msg1 = true -> truthy msg2 = true ->
  ids_issued (db w) = true ->
  let n := next_id (db w) in
  let t := clock (db w) in
  let first := post_chat env1 (mkRequest (Some u) (Some msg1) None) w in
  let second := post_chat env2 (mkRequest (Some u) (Some msg2) (Some n)) (snd first) in
  fst first = Val (json (ChatReply reply1 n true)) /\
  fst second = Val (json (ChatReply reply2 n true)) /\
  turn_history env2 n msg2 (db (snd first))
  = [mkHistoryRow (lit "user") msg1 (N.succ t);
     mkHistoryRow (lit "bot") reply1 (N.succ (N.succ t));
     mkHistoryRow (lit "user") msg2 (N.succ (N.succ (N.succ (N.succ t))))] /\
  In (EvGenerate (turn_prompt env2 n msg2 (db (snd first)))) (log (snd second)) /\
  map cs_id (chat_sessions (db (snd second))) = map cs_id (chat_sessions (db w)) ++ [n].
Proof.
  intros H1 H2 Hg1 Hg2 Hu Hm1 Hm2 Hids. cbv zeta.
  set (n := next_id (db w)). set (t := clock (db w)).
  assert (Hreq1 : well_formed (mkRequest (Some u) (Some msg1) None))
    by (split; assumption).
  assert (Hreq2 : well_formed (mkRequest (Some u) (Some msg2) (Some n)))
    by (split; assumption).
  (* the first turn *)
  assert (Hres1 : resolve_session env1 u msg1 None w
                  = (Val (Some (mkSession n u (derive_title msg1) t t)),
                     mkWorld (snd (q_insert_session u (derive_title msg1) (db w)))
                             (log w ++ [EvStore SiteCreate]))).
  { rewrite resolve_session_fresh, getOrCreate_titled
      by (now rewrite derive_title_truthy).
    now rewrite H1. }
  pose proof (post_chat_resolved env1 w Hreq1 Hres1) as Hfirst. cbv zeta in Hfirst.
  cbn [field message cs_id db] in Hfirst.
  rewrite (generation_result_any env1 _ []), Hg1 in Hfirst.
  unfold turn_history, fetched_history, with_bot_turn, with_user_turn, effect_of
    in Hfirst.
  rewrite !H1 in Hfirst.
  cbn [q_insert_session q_insert_message q_touch_session snd chat_sessions
       chat_messages next_id clock] in Hfirst.
  fold n t in Hfirst.
  set (m1 := mkMessage (N.succ n) n (lit "user") msg1 (N.succ t)) in *.
  set (b1 := mkMessage (N.succ (N.succ n)) n (lit "bot") reply1 (N.succ (N.succ t))) in *.
  assert (Hold : forall x, In x (chat_messages (db w)) -> N.eqb (cm_chat_id x) n = false).
  { intros x Hx. apply N.eqb_neq. pose proof (ids_issued_messages _ _ Hids Hx).
    fold n in H. lia. }
  assert (Hhist1 : q_history n 10
                     (mkStore (chat_sessions (db w) ++ [mkSession n u (derive_title msg1) t t])
                              (chat_messages (db w) ++ [m1])
                              (N.succ (N.succ n)) (N.succ (N.succ t)))
                   = [project m1]).
  { unfold q_history, q_messages_of, limit. cbn [chat_messages].
    rewrite filter_old_new; [reflexivity | exact Hold |].
    intros x [<- | []]. apply N.eqb_refl. }
  rewrite Hhist1 in Hfirst. cbn [length Nat.ltb Nat.leb] in Hfirst.
  set (touch := fun r => if N.eqb (cs_id r) n
                         then mkSession (cs_id r) (cs_user_id r) (cs_title r)
                                        (cs_created_at r) (N.succ (N.succ (N.succ t)))
                         else r).
  set (s1 := mkStore (map touch (chat_sessions (db w)
                                   ++ [mkSession n u (derive_title msg1) t t]))
                     (chat_messages (db w) ++ [m1; b1])
                     (N.succ (N.succ (N.succ n)))
                     (N.succ (N.succ (N.succ (N.succ t))))).
  set (w1 := snd (post_chat env1 (mkRequest (Some u) (Some msg1) None) w)).
  assert (Hdb1 : db w1 = s1).
  { unfold w1. rewrite Hfirst. cbn [snd db]. unfold s1, q_touch_session.
    cbn [chat_sessions chat_messages next_id clock].
    rewrite <- app_assoc. reflexivity. }
  split; [now rewrite Hfirst|].
  (* the second turn *)
  set (cs := mkSession n u (derive_title msg1) t (N.succ (N.succ (N.succ t)))).
  assert (Hlook : q_session_of n u (db w1) = Some cs).
  { assert (Htn : touch (mkSession n u (derive_title msg1) t t) = cs).
    { unfold touch. cbn [cs_id]. now rewrite N.eqb_refl. }
    rewrite Hdb1. unfold q_session_of, s1. cbn [chat_sessions]. rewrite map_app.
    cbn [map]. rewrite Htn.
    rewrite filter_old_new with (new := [cs]); [reflexivity | |].
    - intros x Hx. apply in_map_iff in Hx as (r & <- & Hr).
      pose proof (ids_issued_sessions _ _ Hids Hr) as Hlt. fold n in Hlt.
      unfold touch.
      destruct (N.eqb (cs_id r) n) eqn:E; [apply N.eqb_eq in E; lia|].
      now rewrite E.
    - intros x [<- | []]. cbn [cs cs_id cs_user_id]. rewrite N.eqb_refl, eqb_refl.
      reflexivity. }
  assert (Hres2 : resolve_session env2 u msg2 (Some n) w1
                  = (Val (Some cs), logged w1 (EvStore SiteLookup))).
  { unfold resolve_session. unfold bind at 1. unfold bind at 1.
    rewrite store_call_run, H2. unfold ret, reading. cbn [fst snd data].
    rewrite Hlook. reflexivity. }
  pose proof (post_chat_resolved env2 w1 Hreq2 Hres2) as Hsecond. cbv zeta in Hsecond.
  cbn [field message logged db] in Hsecond.
  change (cs_id cs) with n in Hsecond.
  rewrite (generation_result_any env2 _ []), Hg2 in Hsecond.
  set (m2 := mkMessage (N.succ (N.succ (N.succ n))) n (lit "user") msg2
                       (N.succ (N.succ (N.succ (N.succ t))))).
  assert (Hhist2 : turn_history env2 n msg2 (db w1)
                   = [project m1; project b1; project m2]).
  { rewrite Hdb1.
    unfold turn_history, fetched_history, with_user_turn, effect_of. rewrite !H2.
    unfold q_history, q_messages_of, limit, s1.
    cbn [q_insert_message snd chat_messages next_id clock].
    rewrite <- app_assoc. cbn [app]. fold m2.
    rewrite filter_old_new with (new := [m1; b1; m2]); [| exact Hold |].
    - rewrite order_of_ascending; [reflexivity|].
      unfold ascending_by, m1, b1, m2. repeat constructor; cbn [cm_created_at]; lia.
    - intros x [<- | [<- | [<- | []]]]; apply N.eqb_refl. }
  rewrite Hhist2 in Hsecond. cbn [length Nat.ltb Nat.leb] in Hsecond.
  rewrite Hsecond. cbn [fst snd log db].
  split; [reflexivity|]. split; [exact Hhist2|]. split.
  - apply in_or_app. right. cbn. tauto.
  - unfold effect_of, with_bot_turn, with_user_turn, effect_of. rewrite !H2.
    cbn [q_touch_session q_insert_message snd chat_sessions].
    rewrite Hdb1. unfold s1. cbn [chat_sessions]. rewrite !map_map.
    rewrite (map_ext (fun x => cs_id (if N.eqb (cs_id (touch x)) n
                                      then mkSession (cs_id (touch x)) (cs_user_id (touch x))
                                                     (cs_title (touch x))
                                                     (cs_created_at (touch x))
                                                     (N.succ (N.succ (clock s1)))
                                      else touch x)) cs_id).
    + rewrite map_app. reflexivity.
    + intro x. unfold touch.
      destruct (N.eqb (cs_id x) n) eqn:E; cbn [cs_id]; rewrite E; reflexivity.
Qed.

Lemma follow_up_continues_the_session_witness :
  fst (post_chat Sample.quiet
         (mkRequest (Some Sample.u1) (Some (lit "More")) (Some 1%N))
         (snd (post_chat Sample.quiet Sample.hello (start empty_store))))
  = Val (json (ChatReply (lit "Hi there") 1%N true)).
Proof.
  apply (proj1 (proj2 (@follow_up_continues_the_session
                         Sample.quiet Sample.quiet Sample.u1 (lit "Hello") (lit "More")
                         (lit "Hi there") (lit "Hi there") (start empty_store)
                         (fun _ => eq_refl) (fun _ => eq_refl)
                         eq_refl eq_refl eq_refl eq_refl eq_refl eq_refl))).
Defined.

(* ------------------------------------------------------------------ *)
(** ** The client *)

Lemma post_chat_shape env req w :
  exists resp,
    fst (post_chat env req w) = Val resp /\
    ((~ well_formed req /\ status resp = 400%N /\ snd (post_chat env req w) = w /\
      exists e d, payload resp = ErrorBody e d) \/
     (well_formed req /\ status resp = 500%N /\ exists e d, payload resp = ErrorBody e d) \/
     (well_formed req /\ status resp = 200%N /\
      exists reply cid used, payload resp = ChatReply reply cid used)).
Proof.
  destruct (truthy_opt (userId req)) eqn:Hu;
    [destruct (truthy_opt (message req)) eqn:Hm|].
  - assert (Hreq : well_formed req) by (split; assumption).
    rewrite (post_chat_run env w Hreq).
    destruct (resolve_session env _ _ _ w) as [[[cs|]|e] w1].
    + unfold try_catch. rewrite run_turn_run. cbv zeta.
      destruct (generation_result env _) as [reply|e]; eexists;
        (split; [reflexivity|]); right; [right | left];
        (split; [exact Hreq|]); (split; [reflexivity|]); cbn; eauto.
    + eexists. split; [reflexivity|]. right. left.
      split; [exact Hreq|]. split; [reflexivity|]. cbn. eauto.
    + eexists. split; [reflexivity|]. right. left.
      split; [exact Hreq|]. split; [reflexivity|]. cbn. eauto.
  - rewrite post_chat_invalid by (now right). eexists. split; [reflexivity|]. left.
    split; [intros [_ H]; cbn in H; congruence|]. split; [reflexivity|].
    split; [reflexivity|]. cbn. eauto.
  - rewrite post_chat_invalid by (now left). eexists. split; [reflexivity|]. left.
    split; [intros [H _]; cbn in H; congruence|]. split; [reflexivity|].
    split; [reflexivity|]. cbn. eauto.
Qed.

Lemma trimStart_blank (s : jsstring) :
  forallb Client.is_space s = true -> Client.trimStart s = [].
Proof.
  induction s as [|c s IH]; [reflexivity|]. cbn [forallb Client.trimStart].
  intro H. apply andb_true_iff in H as [Hc Hs]. rewrite Hc. now apply IH.
Qed.

Lemma trimStart_not_blank (s : jsstring) :
  forallb Client.is_space s = false ->
  exists c rest, Client.trimStart s = c :: rest /\ Client.is_space c = false.
Proof.
  induction s as [|c s IH]; [discriminate|]. cbn [forallb Client.trimStart].
  destruct (Client.is_space c) eqn:Hc; [exact IH | eauto].
Qed.

(** [!input.trim()] holds exactly for an input made of white space only. *)
Lemma trim_blank (s : jsstring) :
  truthy (Client.trim s) = false <-> forallb Client.is_space s = true.
Proof.
  unfold Client.trim. split.
  - intro H. destruct (forallb Client.is_space s) eqn:E; [reflexivity|].
    destruct (trimStart_not_blank s E) as (c & rest & Hs & Hc).
    rewrite Hs in H. cbn [rev] in H.
    assert (Hb : forallb Client.is_space (rev rest ++ [c]) = false).
    { rewrite forallb_app. cbn [forallb]. rewrite Hc. now rewrite andb_false_r. }
    destruct (trimStart_not_blank _ Hb) as (c' & rest' & Hs' & _).
    rewrite Hs' in H. cbn [rev] in H. destruct (rev rest'); discriminate H.
  - intro H. now rewrite (trimStart_blank s H).
Qed.

Lemma loadChatSessions_keeps l a w :
  let a' := fst (Client.loadChatSessions l a w) in
  Client.messages a' = Client.messages a /\
  Client.input a' = Client.input a /\
  Client.isLoading a' = Client.isLoading a /\
  Client.currentChatId a' = Client.currentChatId a /\
  Client.userId a' = Client.userId a.
Proof.
  cbv zeta. unfold Client.loadChatSessions, Client.request.
  destruct l as [reason|env]; [cbn; auto|].
  destruct (get_chat_sessions env (Client.userId a) w) as [[resp|e] w']; [|cbn; auto].
  destruct (Client.ok resp); [|cbn; auto].
  destruct (payload resp); cbn; auto.
Qed.

Lemma showError_line e a :
  exists line,
    Client.messages (Client.showError e a)
    = Client.messages a ++ [Client.mkEntry (lit "bot") line None] /\
    begins_with line Client.warning /\
    Client.input (Client.showError e a) = Client.input a /\
    Client.isLoading (Client.showError e a) = false /\
    Client.currentChatId (Client.showError e a) = Client.currentChatId a /\
    Client.userId (Client.showError e a) = Client.userId a.
Proof.
  unfold Client.showError.
  exists (Client.warning +++
            (if includes e (lit "fetch") then
               lit "Cannot connect to the server. Make sure your backend is running on "
                   +++ Client.BACKEND_URL
             else if includes e (lit "API Key") then
               lit "API configuration error. Please check your Gemini API key."
             else lit "Error: " +++ e)).
  split; [|split].
  - destruct (includes e (lit "fetch")); reflexivity.
  - eexists. reflexivity.
  - destruct (includes e (lit "fetch")); cbn; auto.
Qed.

(** What one click on Send does to the transcript.  The click is ignored,
    state and server untouched, when the input is white space only or a send
    is in flight.  Otherwise the transcript grows by exactly two lines, the
    input as typed and then one line from the assistant, which is the reply
    when the server answered 200 and a line starting with the warning sign in
    every other case; the input field is emptied and loading is off again. *)
Theorem send_adds_two_lines lchat llist a w :
  let out := Client.sendMessage lchat llist a w in
  (forallb Client.is_space (Client.input a) = true \/ Client.isLoading a = true ->
   out = (a, w)) /\
  (forallb Client.is_space (Client.input a) = false -> Client.isLoading a = false ->
   exists line,
     Client.messages (fst out)
     = Client.messages a ++ [Client.mkEntry (lit "user") (Client.input a) None;
                             Client.mkEntry (lit "bot") line None] /\
     Client.input (fst out) = [] /\
     Client.isLoading (fst out) = false /\
     (forall reason, lchat = Client.Down reason ->
        begins_with line Client.warning /\ snd out = w) /\
     (forall env resp,
        lchat = Client.Up env ->
        fst (post_chat env (mkRequest (Some (Client.userId a)) (Some (Client.input a))
                                      (Client.currentChatId a)) w) = Val resp ->
        (status resp = 200%N ->
         exists cid used, payload resp = ChatReply line cid used) /\
        (status resp <> 200%N -> begins_with line Client.warning))).
Proof.
  cbv zeta. unfold Client.sendMessage. split.
  - intros [H | H].
    + apply trim_blank in H. now rewrite H.
    + rewrite H. now rewrite orb_true_r.
  - intros Hin Hl.
    assert (Ht : truthy (Client.trim (Client.input a)) = true).
    { destruct (truthy (Client.trim (Client.input a))) eqn:E; [reflexivity|].
      apply trim_blank in E. congruence. }
    rewrite Ht, Hl. cbn [negb orb]. cbv zeta.
    set (a1 := Client.setMessages _ _).
    assert (Ha1 : Client.messages a1
                  = Client.messages a ++ [Client.mkEntry (lit "user") (Client.input a) None]
                  /\ Client.input a1 = []) by (split; reflexivity).
    destruct Ha1 as [Hm1 Hi1].
    unfold Client.request. destruct lchat as [reason|env].
    + destruct (showError_line reason a1) as (line & Hm & Hw & Hi & Hld & _).
      exists line. cbn [fst snd]. rewrite Hm, Hm1, <- app_assoc, Hi, Hi1.
      split; [reflexivity|]. split; [reflexivity|]. split; [exact Hld|].
      split; [auto | intros env resp H; discriminate H].
    + set (req := mkRequest _ _ _).
      destruct (post_chat_shape env req w) as (resp & Hresp & Hshape).
      destruct (post_chat env req w) as [r w1] eqn:Hrun. cbn [fst] in Hresp. subst r.
      assert (Hsame : forall env' resp',
                Client.Up env = Client.Up env' ->
                fst (post_chat env' req w) = Val resp' -> resp' = resp).
      { intros env' resp' [= <-]. rewrite Hrun. now intros [= <-]. }
      assert (Herr : Client.ok resp = false ->
                exists line,
                  Client.messages (Client.showError (Client.errorText resp) a1)
                  = Client.messages a ++ [Client.mkEntry (lit "user") (Client.input a) None;
                                          Client.mkEntry (lit "bot") line None] /\
                  Client.input (Client.showError (Client.errorText resp) a1) = [] /\
                  Client.isLoading (Client.showError (Client.errorText resp) a1) = false /\
                  begins_with line Client.warning).
      { intros _.
        destruct (showError_line (Client.errorText resp) a1)
          as (line & Hm & Hw & Hi & Hld & _).
        exists line. rewrite Hm, Hm1, <- app_assoc, Hi, Hi1. auto. }
      assert (Hfail : status resp <> 200%N -> Client.ok resp = false ->
        exists line,
          Client.messages (fst (Client.showError (Client.errorText resp) a1, w1))
          = Client.messages a ++ [Client.mkEntry (lit "user") (Client.input a) None;
                                  Client.mkEntry (lit "bot") line None] /\
          Client.input (fst (Client.showError (Client.errorText resp) a1, w1)) = [] /\
          Client.isLoading (fst (Client.showError (Client.errorText resp) a1, w1)) = false /\
          (forall reason, Client.Up env = Client.Down reason ->
             begins_with line Client.warning /\
             snd (Client.showError (Client.errorText resp) a1, w1) = w) /\
          (forall env' resp',
             Client.Up env = Client.Up env' ->
             fst (post_chat env' req w) = Val resp' ->
             (status resp' = 200%N ->
              exists cid used, payload resp' = ChatReply line cid used) /\
             (status resp' <> 200%N -> begins_with line Client.warning))).
      { intros Hs Hok. destruct (Herr Hok) as (line & Hm & Hi & Hld & Hw).
        exists line. cbn [fst snd].
        split; [exact Hm|]. split; [exact Hi|]. split; [exact Hld|]. split.
        - intros reason H. discriminate H.
        - intros env' resp' He Hr. rewrite (Hsame env' resp' He Hr).
          split; [intro H; now elim Hs | intros _; exact Hw]. }
      destruct Hshape as [(_ & Hs & _ & _) | [(_ & Hs & _) | (_ & Hs & reply & cid & used & Hp)]].
      * assert (Hok : Client.ok resp = false) by (unfold Client.ok; now rewrite Hs).
        rewrite Hok. apply Hfail; [rewrite Hs; discriminate | exact Hok].
      * assert (Hok : Client.ok resp = false) by (unfold Client.ok; now rewrite Hs).
        rewrite Hok. apply Hfail; [rewrite Hs; discriminate | exact Hok].
      * assert (Hok : Client.ok resp = true) by (unfold Client.ok; now rewrite Hs).
        rewrite Hok, Hp.
        set (a3 := match Client.currentChatId a with
                   | Some _ => _
                   | None => _
                   end).
        assert (Ha3 : Client.messages a3
                      = Client.messages a1 ++ [Client.mkEntry (lit "bot") reply None]
                      /\ Client.input a3 = []).
        { unfold a3. destruct (Client.currentChatId a); split; reflexivity. }
        destruct Ha3 as [Hm3 Hi3].
        pose proof (loadChatSessions_keeps llist a3 w1) as Hk. cbv zeta in Hk.
        destruct (Client.loadChatSessions llist a3 w1) as [a4 w2]. cbn [fst] in Hk.
        destruct Hk as (Hm4 & Hi4 & _).
        exists reply. cbn [fst snd Client.messages Client.input Client.isLoading
                           Client.setIsLoading Client.setConnectionError].
        rewrite Hm4, Hm3, Hm1, <- app_assoc, Hi4, Hi3.
        split; [reflexivity|]. split; [reflexivity|]. split; [reflexivity|]. split.
        -- intros reason H. discriminate H.
        -- intros env' resp' He Hr. rewrite (Hsame env' resp' He Hr).
           split; [intros _; eauto | intro H; now elim H].
Qed.

Lemma send_adds_two_lines_witness :
  exists line,
    Client.messages (fst (Client.sendMessage (Client.Up Sample.quiet) (Client.Up Sample.quiet)
                                             Client.visitor (start empty_store)))
    = Client.messages Client.visitor
        ++ [Client.mkEntry (lit "user") (lit "Hello") None;
            Client.mkEntry (lit "bot") line None].
Proof.
  destruct (proj2 (send_adds_two_lines (Client.Up Sample.quiet) (Client.Up Sample.quiet)
                     Client.visitor (start empty_store)) eq_refl eq_refl)
    as (line & Hm & _).
  exists line. exact Hm.
Defined.

(** Which chat the client is in after a send that was not ignored.  A client
    already in a chat stays in it.  A client in a new chat adopts the session
    id of the reply when the server answers 200, and stays in the new chat
    when the request fails.  A client with a user id never gets the 400 of
    the validation, since an input that is not blank is not empty.  After a
    200 the connection error is cleared, even if the reload of the session
    list that follows failed. *)
Theorem send_keeps_the_conversation lchat llist a w :
  forallb Client.is_space (Client.input a) = false ->
  Client.isLoading a = false ->
  truthy (Client.userId a) = true ->
  let out := Client.sendMessage lchat llist a w in
  (forall c, Client.currentChatId a = Some c -> Client.currentChatId (fst out) = Some c) /\
  (forall reason, lchat = Client.Down reason ->
     Client.currentChatId (fst out) = Client.currentChatId a) /\
  (forall env,
     lchat = Client.Up env ->
     exists resp,
       fst (post_chat env (mkRequest (Some (Client.userId a)) (Some (Client.input a))
                                     (Client.currentChatId a)) w) = Val resp /\
       status resp <> 400%N /\
       (status resp = 200%N ->
        Client.connectionError (fst out) = None /\
        forall reply cid used,
          payload resp = ChatReply reply cid used ->
          Client.currentChatId a = None ->
          Client.currentChatId (fst out) = Some cid) /\
       (status resp <> 200%N ->
        Client.currentChatId (fst out) = Client.currentChatId a)).
Proof.
  intros Hin Hl Hu. cbv zeta. unfold Client.sendMessage.
  assert (Ht : truthy (Client.trim (Client.input a)) = true).
  { destruct (truthy (Client.trim (Client.input a))) eqn:E; [reflexivity|].
    apply trim_blank in E. congruence. }
  assert (Hne : truthy (Client.input a) = true).
  { destruct (Client.input a); [discriminate Hin | reflexivity]. }
  rewrite Ht, Hl. cbn [negb orb]. cbv zeta.
  set (a1 := Client.setMessages _ _).
  assert (Hc1 : Client.currentChatId a1 = Client.currentChatId a) by reflexivity.
  unfold Client.request. destruct lchat as [reason|env].
  - destruct (showError_line reason a1) as (line & _ & _ & _ & _ & Hc & _).
    cbn [fst]. rewrite Hc, Hc1.
    split; [auto|]. split; [auto|]. intros env H. discriminate H.
  - set (req := mkRequest _ _ _).
    assert (Hreq : well_formed req) by (split; assumption).
    destruct (post_chat_shape env req w) as (resp & Hresp & Hshape).
    destruct (post_chat env req w) as [r w1] eqn:Hrun. cbn [fst] in Hresp. subst r.
    destruct Hshape as [(Hbad & _) | [(_ & Hs & _) | (_ & Hs & reply & cid & used & Hp)]].
    + now elim Hbad.
    + assert (Hok : Client.ok resp = false) by (unfold Client.ok; now rewrite Hs).
      rewrite Hok.
      destruct (showError_line (Client.errorText resp) a1)
        as (line & _ & _ & _ & _ & Hc & _).
      cbn [fst]. rewrite Hc, Hc1.
      split; [auto|]. split; [auto|].
      intros env' [= <-]. exists resp. rewrite Hrun. split; [reflexivity|].
      rewrite Hs. split; [discriminate|]. split; [discriminate | reflexivity].
    + assert (Hok : Client.ok resp = true) by (unfold Client.ok; now rewrite Hs).
      rewrite Hok, Hp.
      set (a3 := match Client.currentChatId a with
                 | Some _ => _
                 | None => _
                 end).
      assert (Hc3 : Client.currentChatId a3
                    = match Client.currentChatId a with
                      | Some c => Some c
                      | None => Some cid
                      end).
      { unfold a3. destruct (Client.currentChatId a) eqn:E; cbn; [|reflexivity].
        exact E. }
      pose proof (loadChatSessions_keeps llist a3 w1) as Hk. cbv zeta in Hk.
      destruct (Client.loadChatSessions llist a3 w1) as [a4 w2]. cbn [fst] in Hk.
      destruct Hk as (_ & _ & _ & Hc4 & _).
      cbn [fst Client.currentChatId Client.connectionError
           Client.setIsLoading Client.setConnectionError].
      rewrite Hc4, Hc3.
      split; [intros c ->; reflexivity|].
      split; [intros reason H; discriminate H|].
      intros env' [= <-]. exists resp. rewrite Hrun. split; [reflexivity|].
      rewrite Hs. split; [discriminate|]. split.
      * intros _. split; [reflexivity|].
        intros reply' cid' used' Hp' ->. rewrite Hp in Hp'. now injection Hp' as _ <- _.
      * intro H. now elim H.
Qed.

Lemma send_keeps_the_conversation_witness :
  Client.currentChatId
    (fst (Client.sendMessage (Client.Up Sample.quiet) (Client.Up Sample.quiet)
                             Client.regular (start Sample.shared_store)))
  = Some 1%N.
Proof.
  apply (proj1 (@send_keeps_the_conversation (Client.Up Sample.quiet)
                  (Client.Up Sample.quiet) Client.regular (start Sample.shared_store)
                  eq_refl eq_refl eq_refl) 1%N eq_refl).
Defined.

Lemma resolve_session_rejects env uid msg cid w e w1 :
  resolve_session env uid msg cid w = (Exn e, w1) ->
  store_fault env SiteLookup = Throws e.
Proof.
  destruct cid as [c|].
  - unfold resolve_session. unfold bind at 1. unfold bind at 1.
    rewrite store_call_run.
    destruct (store_fault env SiteLookup); unfold ret, reading; cbn [fst snd data].
    + destruct (q_session_of c uid (db w)); [discriminate|].
      intro H. apply getOrCreate_log in H as [_ [v H]]. discriminate H.
    + intro H. apply getOrCreate_log in H as [_ [v H]]. discriminate H.
    + now intros [= -> _].
  - intro H. change (getOrCreateChatSession env uid (Some (derive_title msg)) w
                     = (Exn e, w1)) in H.
    apply getOrCreate_log in H as [_ [v H]]. discriminate H.
Qed.

(** Where the error text of a failed generation comes from: it is one of the
    texts the server words itself, or it is taken from the backend. *)
Lemma generation_error_origin env p w e :
  fst (generate env p w) = Exn e ->
  In e worded_by_server \/
  (exists reason, backend env = FetchThrows reason /\ e = reason) \/
  (exists code statusText m cands,
     backend env = FetchResponse false code statusText (mkData (Some m) cands) /\
     e = m /\ m <> [] /\
     ~ contains m (lit "API key") /\ ~ contains m (lit "quota")) \/
  (exists code statusText cands,
     backend env = FetchResponse false code statusText (mkData None cands) /\
     e = lit "HTTP " +++ of_number code +++ lit ": " +++ statusText).
Proof.
  rewrite generate_run. cbn [fst].
  unfold generation_result, generate, bind, emit, ret, throw, worded_by_server.
  destruct (backend env) as [reason|ok code st [err cands]]; cbn [fst].
  - intros [= <-]. right. left. eauto.
  - destruct ok; cbn [negb candidates error_message].
    + destruct cands as [[|c cs]|]; cbn [fst].
      * intros [= <-]. left. cbn. tauto.
      * destruct (match finishReason c with
                  | Some reason => eqb reason (lit "SAFETY")
                  | None => false
                  end); cbn [fst]; [|discriminate].
        intros [= <-]. left. cbn. tauto.
      * intros [= <-]. left. cbn. tauto.
    + destruct err as [m|]; cbn [fst].
      * destruct (includes m (lit "API key")) eqn:Ek; cbn [fst].
        { intros [= <-]. left. cbn. tauto. }
        destruct (includes m (lit "quota")) eqn:Eq; cbn [fst].
        { intros [= <-]. left. cbn. tauto. }
        apply includes_false in Ek. apply includes_false in Eq.
        unfold or_else. destruct m as [|c m]; cbn [truthy].
        { intros [= <-]. left. cbn. tauto. }
        intros [= <-]. right. right. left.
        exists code, st, (c :: m), cands. repeat split; auto. discriminate.
      * intros [= <-]. right. right. right. eauto.
Qed.

(** What the user is shown when the server reports a failure.  If the server
    answers a send with a non-success status, the assistant line is the
    warning sign followed by a text chosen from the error text of the answer
    (its details, else its error, else the status): the connection hint when
    that text contains "fetch", in which case the client also records that
    the backend is not accessible although it has just answered; the
    API-configuration hint when it contains "API Key"; otherwise "Error: "
    and the text itself.  The answer is the validation error, the session
    failure, or the internal error carrying either the reason of a rejected
    session lookup or the error of the generation step.  The error of the
    generation step is one of five texts the server words itself, or it is
    taken from the backend: the reason of a rejected request, a non-empty
    data.error.message without "API key" and "quota", or "HTTP <status>:
    <statusText>".  The texts the server words itself contain neither "fetch"
    nor "API Key" and are therefore shown after "Error: ", the invalid-key
    text included; a text taken from the backend or the store is shown under
    whichever of the three cases its content selects. *)
Theorem server_errors_on_screen env llist a w resp :
  forallb Client.is_space (Client.input a) = false ->
  Client.isLoading a = false ->
  fst (post_chat env (mkRequest (Some (Client.userId a)) (Some (Client.input a))
                                (Client.currentChatId a)) w) = Val resp ->
  Client.ok resp = false ->
  let out := Client.sendMessage (Client.Up env) llist a w in
  let text := Client.errorText resp in
  (exists hint,
     Client.messages (fst out)
     = Client.messages a ++ [Client.mkEntry (lit "user") (Client.input a) None;
                             Client.mkEntry (lit "bot") (Client.warning +++ hint) None] /\
     (contains text (lit "fetch") ->
      hint = lit "Cannot connect to the server. Make sure your backend is running on http://localhost:5000" /\
      Client.connectionError (fst out) = Some (lit "Backend server not accessible")) /\
     (~ contains text (lit "fetch") -> contains text (lit "API Key") ->
      hint = lit "API configuration error. Please check your Gemini API key.") /\
     (~ contains text (lit "fetch") -> ~ contains text (lit "API Key") ->
      hint = lit "Error: " +++ text /\
      Client.connectionError (fst out) = Client.connectionError a)) /\
  (resp = status_json 400 (ErrorBody (lit "userId and message are required") None) \/
   resp = session_failure \/
   (exists e, store_fault env SiteLookup = Throws e /\ resp = internal_error e) \/
   (exists e p w0, fst (generate env p w0) = Exn e /\ resp = internal_error e)) /\
  (forall e p w0,
     fst (generate env p w0) = Exn e ->
     In e worded_by_server \/
     (exists reason, backend env = FetchThrows reason /\ e = reason) \/
     (exists code statusText m cands,
        backend env = FetchResponse false code statusText (mkData (Some m) cands) /\
        e = m /\ m <> [] /\
        ~ contains m (lit "API key") /\ ~ contains m (lit "quota")) \/
     (exists code statusText cands,
        backend env = FetchResponse false code statusText (mkData None cands) /\
        e = lit "HTTP " +++ of_number code +++ lit ": " +++ statusText)) /\
  (forall d, d <> [] -> Client.errorText (internal_error d) = d) /\
  Client.errorText (internal_error []) = lit "Internal server error" /\
  Client.errorText session_failure = lit "Failed to create/get chat session" /\
  Client.errorText (status_json 400 (ErrorBody (lit "userId and message are required")
                                               None))
  = lit "userId and message are required" /\
  Forall (fun d => ~ contains d (lit "fetch") /\ ~ contains d (lit "API Key"))
         (worded_by_server ++
          [lit "Internal server error";
           lit "Failed to create/get chat session";
           lit "userId and message are required"]).
Proof.
  intros Hin Hl Hrun Hok. cbv zeta.
  split; [|split; [|split; [|split; [|split; [|split; [|split]]]]]].
  - unfold Client.sendMessage.
    assert (Ht : truthy (Client.trim (Client.input a)) = true).
    { destruct (truthy (Client.trim (Client.input a))) eqn:E; [reflexivity|].
      apply trim_blank in E. congruence. }
    rewrite Ht, Hl. cbn [negb orb]. cbv zeta. unfold Client.request.
    destruct (post_chat env _ w) as [r w1]. cbn [fst] in Hrun. subst r.
    rewrite Hok. cbn [fst]. unfold Client.showError.
    set (text := Client.errorText resp).
    destruct (includes text (lit "fetch")) eqn:Ef.
    + apply includes_spec in Ef. eexists. split.
      * cbn [Client.messages Client.setIsLoading Client.setMessages
             Client.setConnectionError Client.setInput].
        rewrite <- app_assoc. reflexivity.
      * split; [intros _; split; reflexivity|].
        split; intro H; now elim H.
    + apply includes_false in Ef.
      destruct (includes text (lit "API Key")) eqn:Ek.
      * apply includes_spec in Ek. eexists. split.
        -- cbn [Client.messages Client.setIsLoading Client.setMessages
                Client.setConnectionError Client.setInput].
           rewrite <- app_assoc. reflexivity.
        -- split; [intro H; now elim Ef|]. split; [reflexivity|].
           intros _ H. now elim H.
      * apply includes_false in Ek. eexists. split.
        -- cbn [Client.messages Client.setIsLoading Client.setMessages
                Client.setConnectionError Client.setInput].
           rewrite <- app_assoc. reflexivity.
        -- split; [intro H; now elim Ef|]. split; [intros _ H; now elim Ek|].
           intros _ _. split; reflexivity.
  - set (req := mkRequest _ _ _) in *.
    destruct (truthy_opt (userId req)) eqn:Hu;
      [destruct (truthy_opt (message req)) eqn:Hm|].
    + rewrite (@post_chat_run env req w (conj Hu Hm)) in Hrun.
      destruct (resolve_session env _ _ _ w) as [[[cs|]|e] w1] eqn:Hres.
      * unfold try_catch in Hrun. rewrite run_turn_run in Hrun. cbv zeta in Hrun.
        match type of Hrun with
        | context [generation_result env ?p0] =>
            pose proof (generate_run env p0 (start empty_store)) as Hg;
            destruct (generation_result env p0) as [reply|e] eqn:Eg
        end.
        -- injection Hrun as <-. discriminate Hok.
        -- injection Hrun as <-. right. right. right.
           eexists e, _, (start empty_store). rewrite Hg. split; reflexivity.
      * injection Hrun as <-. right. left. reflexivity.
      * injection Hrun as <-. right. right. left. exists e. split; [|reflexivity].
        now apply resolve_session_rejects in Hres.
    + rewrite post_chat_invalid in Hrun by (now right). injection Hrun as <-. now left.
    + rewrite post_chat_invalid in Hrun by (now left). injection Hrun as <-. now left.
  - intros e p w0. apply generation_error_origin.
  - intros d Hd. unfold Client.errorText, internal_error, status_json.
    cbn [payload field or_else]. unfold or_else.
    destruct d; [now elim Hd | reflexivity].
  - reflexivity.
  - reflexivity.
  - reflexivity.
  - repeat constructor; apply includes_false; vm_compute; reflexivity.
Qed.

Lemma server_errors_on_screen_witness :
  exists hint,
    Client.messages
      (fst (Client.sendMessage (Client.Up Sample.filtered) (Client.Up Sample.quiet)
                               Client.visitor (start empty_store)))
    = Client.messages Client.visitor
        ++ [Client.mkEntry (lit "user") (lit "Hello") None;
            Client.mkEntry (lit "bot") (Client.warning +++ hint) None] /\
    hint = lit "Error: " +++ safety_message.
Proof.
  destruct (proj1 (@server_errors_on_screen Sample.filtered (Client.Up Sample.quiet)
                     Client.visitor (start empty_store)
                     (internal_error safety_message) eq_refl eq_refl eq_refl eq_refl))
    as (hint & Hm & _ & _ & Hplain).
  exists hint. split; [exact Hm|].
  apply Hplain; apply includes_false; vm_compute; reflexivity.
Defined.

(** Texts taken from the backend do reach the hints: a 502 whose status text
    contains "fetch" is shown as the connection hint, and an error message
    that contains "API Key" as the API-configuration hint. *)
Lemma backend_texts_reach_the_hints :
  Client.messages
    (fst (Client.sendMessage
            (Client.Up (mkEnv calm (FetchResponse false 502
                                      (lit "Bad Gateway: upstream prefetch failed")
                                      (mkData None None))))
            (Client.Up Sample.quiet) Client.visitor (start empty_store)))
  = Client.messages Client.visitor
      ++ [Client.mkEntry (lit "user") (lit "Hello") None;
          Client.mkEntry (lit "bot")
            (Client.warning +++ lit "Cannot connect to the server. Make sure your backend is running on http://localhost:5000")
            None] /\
  Client.messages
    (fst (Client.sendMessage
            (Client.Up (mkEnv calm (FetchResponse false 403 (lit "Forbidden")
                                      (mkData (Some (lit "API Key restricted for this referrer"))
                                              None))))
            (Client.Up Sample.quiet) Client.visitor (start empty_store)))
  = Client.messages Client.visitor
      ++ [Client.mkEntry (lit "user") (lit "Hello") None;
          Client.mkEntry (lit "bot")
            (Client.warning +++ lit "API configuration error. Please check your Gemini API key.")
            None].
Proof. split; vm_compute; reflexivity. Qed.

(** Deleting a chat from the sidebar.  If the request does not get through
    or the server answers with the failure, only the connection error
    changes.  If the server confirms the deletion, the connection error is
    cleared; a client that was in the deleted chat is put into a new chat
    with the greeting as its only line, any other client keeps its chat and
    its transcript; and when the reload of the list goes through, the list
    shown holds sessions of this user only and no longer holds the deleted
    one. *)
Theorem sidebar_delete ldelete llist chatId a w :
  let out := Client.deleteChatSession ldelete llist chatId a w in
  ((exists reason, ldelete = Client.Down reason) \/
   (exists env, ldelete = Client.Up env /\
                fst (delete_chat_session env chatId w) = Val delete_failure) ->
   fst out
   = Client.setConnectionError (Some (lit "Failed to delete chat session")) a) /\
  (forall env,
     ldelete = Client.Up env ->
     fst (delete_chat_session env chatId w) = Val delete_success ->
     Client.connectionError (fst out) = None /\
     (Client.currentChatId a = Some chatId ->
      Client.currentChatId (fst out) = None /\
      Client.messages (fst out) = [Client.greeting]) /\
     (Client.currentChatId a <> Some chatId ->
      Client.currentChatId (fst out) = Client.currentChatId a /\
      Client.messages (fst out) = Client.messages a) /\
     (forall env2,
        llist = Client.Up env2 ->
        store_fault env2 SiteListSessions = NoFault ->
        ~ In chatId (map cs_id (Client.chatSessions (fst out))) /\
        forall r, In r (Client.chatSessions (fst out)) ->
                  cs_user_id r = Client.userId a)).
Proof.
  cbv zeta. unfold Client.deleteChatSession, Client.request. split.
  - intros [[reason ->] | (env & -> & Hfail)]; [reflexivity|].
    destruct (delete_chat_session env chatId w) as [r w1]. cbn [fst] in Hfail.
    subst r. reflexivity.
  - intros env -> Hdone.
    pose proof (delete_chat_session_run env chatId w) as Hrun.
    destruct (delete_chat_session env chatId w) as [r w1]. cbn [fst] in Hdone. subst r.
    change (Client.ok delete_success) with true. cbv iota.
    assert (Hdb : exists s0, db w1 = q_delete_session chatId s0).
    { revert Hrun. unfold effect_of.
      destruct (store_fault env SiteDeleteMessages);
        destruct (store_fault env SiteDeleteSession); cbv zeta;
        intro H; unfold delete_failure, delete_success, json, status_json, logged in H;
        first [ discriminate H
              | solve [injection H as H2; rewrite H2; cbn [db]; eauto] ]. }
    destruct Hdb as [s0 Hdb].
    pose proof (loadChatSessions_keeps llist a w1) as Hk. cbv zeta in Hk.
    assert (Hlist : forall env2,
              llist = Client.Up env2 -> store_fault env2 SiteListSessions = NoFault ->
              Client.chatSessions (fst (Client.loadChatSessions llist a w1))
              = q_sessions_of_user (Client.userId a) (db w1)).
    { intros env2 -> H2. unfold Client.loadChatSessions, Client.request.
      rewrite get_chat_sessions_run, H2. reflexivity. }
    destruct (Client.loadChatSessions llist a w1) as [a1 w2]. cbn [fst] in *.
    destruct Hk as (Hm & _ & _ & Hc & _).
    split; [reflexivity|]. split; [|split].
    + intros Hcur. rewrite Hcur. cbn [Client.same_chat]. rewrite N.eqb_refl.
      split; reflexivity.
    + intros Hcur.
      assert (Hs : Client.same_chat (Client.currentChatId a) chatId = false).
      { unfold Client.same_chat. destruct (Client.currentChatId a) as [c|]; [|reflexivity].
        apply N.eqb_neq. intros ->. now elim Hcur. }
      rewrite Hs. cbn [Client.currentChatId Client.messages Client.setConnectionError].
      auto.
    + intros env2 Hl H2.
      assert (Hcs : Client.chatSessions
                      (Client.setConnectionError None
                         (if Client.same_chat (Client.currentChatId a) chatId
                          then Client.startNewChat a1 else a1))
                    = Client.chatSessions a1).
      { destruct (Client.same_chat (Client.currentChatId a) chatId); reflexivity. }
      rewrite Hcs, (Hlist env2 Hl H2), Hdb. split.
      * apply session_gone.
      * intros r Hr. unfold q_sessions_of_user in Hr. apply order_In in Hr.
        apply filter_In in Hr as [_ Hr]. now apply eqb_eq.
Qed.

Lemma sidebar_delete_witness :
  Client.currentChatId
    (fst (Client.deleteChatSession (Client.Up Sample.quiet) (Client.Up Sample.quiet)
                                   1%N Client.regular (start Sample.shared_store)))
  = None /\
  Client.messages
    (fst (Client.deleteChatSession (Client.Up Sample.quiet) (Client.Up Sample.quiet)
                                   1%N Client.regular (start Sample.shared_store)))
  = [Client.greeting].
Proof.
  destruct (proj2 (sidebar_delete (Client.Up Sample.quiet) (Client.Up Sample.quiet)
                     1%N Client.regular (start Sample.shared_store))
              Sample.quiet eq_refl eq_refl) as (_ & Hcur & _).
  apply Hcur. reflexivity.
Defined.

(** Opening a chat from the sidebar.  The client is in that chat from then
    on, whether or not its messages could be loaded.  When the server answers
    with the list, the transcript becomes exactly the stored messages of the
    chat, oldest first, each with its role, content and creation time; when
    the request does not get through or the read fails, the transcript stays
    as it was and only the connection error is set. *)
Theorem sidebar_switch l chatId a w :
  let out := Client.switchToChat l chatId a w in
  Client.currentChatId (fst out) = Some chatId /\
  (forall env,
     l = Client.Up env -> store_fault env SiteListMessages = NoFault ->
     Client.messages (fst out)
     = map (fun m => Client.mkEntry (cm_role m) (cm_content m) (Some (cm_created_at m)))
           (q_messages_of chatId (db w)) /\
     ascending_by cm_created_at (q_messages_of chatId (db w)) /\
     Client.connectionError (fst out) = None) /\
  ((exists reason, l = Client.Down reason) \/
   (exists env, l = Client.Up env /\ store_fault env SiteListMessages <> NoFault) ->
   Client.messages (fst out) = Client.messages a /\
   Client.connectionError (fst out) = Some (lit "Failed to load chat messages")).
Proof.
  cbv zeta. unfold Client.switchToChat, Client.loadChatMessages, Client.request.
  split; [|split].
  - destruct l as [reason|env]; [reflexivity|].
    rewrite get_chat_messages_run.
    destruct (store_fault env SiteListMessages); reflexivity.
  - intros env -> Hf. rewrite get_chat_messages_run, Hf.
    split; [reflexivity|]. split; [apply order_ascending | reflexivity].
  - intros [[reason ->] | (env & -> & Hf)]; [split; reflexivity|].
    rewrite get_chat_messages_run.
    destruct (store_fault env SiteListMessages); [now elim Hf | |]; split; reflexivity.
Qed.

Lemma sidebar_switch_witness :
  Client.messages (fst (Client.switchToChat (Client.Up Sample.quiet) 1%N Client.visitor
                                            (start Sample.shared_store)))
  = [Client.mkEntry (lit "user") (lit "private") (Some 3%N)].
Proof.
  apply (proj1 (proj1 (proj2 (sidebar_switch (Client.Up Sample.quiet) 1%N Client.visitor
                                (start Sample.shared_store)))
                      Sample.quiet eq_refl eq_refl)).
Defined.

Lemma post_chat_always_answers_witness :
  exists resp w',
    post_chat Sample.quiet (mkRequest (Some Sample.u1) None None) (start empty_store)
    = (Val resp, w') /\
    status resp = 400%N /\ w' = start empty_store.
Proof.
  destruct (post_chat_always_answers Sample.quiet (mkRequest (Some Sample.u1) None None)
              (start empty_store)) as (resp & w' & Hrun & H400 & Hsame & _).
  assert (Hs : status resp = 400%N).
  { apply H400. intros [_ H]. discriminate H. }
  exists resp, w'. split; [exact Hrun|]. split; [exact Hs | exact (Hsame Hs)].
Defined.

Lemma post_chat_only_appends_witness :
  exists new_sessions new_messages,
    map session_identity
        (chat_sessions (db (snd (post_chat Sample.quiet Sample.hello_again
                                           (start Sample.returning_store)))))
    = map session_identity (chat_sessions Sample.returning_store ++ new_sessions) /\
    length new_sessions <= 1 /\
    chat_messages (db (snd (post_chat Sample.quiet Sample.hello_again
                                      (start Sample.returning_store))))
    = chat_messages Sample.returning_store ++ new_messages /\
    length new_messages <= 2 /\
    (forall m m', In m new_messages -> In m' new_messages ->
                  cm_chat_id m = cm_chat_id m').
Proof.
  exact (post_chat_only_appends Sample.quiet Sample.hello_again
           (start Sample.returning_store)).
Defined.
